(** * leidenalg_detect.py: the JSON wrapper around the Leiden library

    A shallow embedding of [priv/scripts/leidenalg_detect.py].  The script
    reads a JSON document from stdin, converts its edges to
    [(source, target, weight)] tuples, hands a graph to the third-party
    libraries igraph and leidenalg, and prints the communities together
    with three counters.

    The partition itself is computed by [leidenalg.find_partition], which
    is not code of this script: it enters the development as a Section
    variable, as does the text-to-float conversion of the Python runtime. *)

From Stdlib Require Import ZArith QArith List String Ascii Bool Lia.
From Stdlib Require Import Permutation.
From Stdlib Require Import SpecFloat.
Import ListNotations.

Local Close Scope Q_scope.
Local Open Scope string_scope.
Local Open Scope list_scope.

Set Warnings "-register-all".

(** ** Python values as produced by [json.load] *)

(** A Python [float] is an IEEE-754 binary64 value. *)
Definition pyfloat := spec_float.

Definition prec64 : Z := 53%Z.
Definition emax64 : Z := 1024%Z.

(** The literal [1.0]. *)
Definition one : pyfloat := S754_finite false 4503599627370496 (-52)%Z.

Inductive json : Type :=
| JNull
| JBool (b : bool)
| JInt (z : Z)
| JFloat (f : pyfloat)
| JStr (s : string)
| JArr (items : list json)
| JObj (fields : list (string * json)).

(** ** Exceptions *)

(** [LibraryError] stands for any subclass of [Exception] that a library
    raises.  [BaseException] is an exception raised as a bare
    [BaseException], outside [Exception]: this is how leidenalg reports the
    failures of its C++ core. *)
Inductive exn : Type :=
| TypeError (msg : string)
| ValueError (msg : string)
| AttributeError (msg : string)
| OverflowError (msg : string)
| KeyError (key : string)
| UnicodeDecodeError (msg : string)
| RecursionError (msg : string)
| LibraryError (msg : string)
| BaseException (msg : string).

(** [isinstance(e, Exception)]: what [except Exception] catches. *)
Definition is_exception (e : exn) : bool :=
  match e with
  | BaseException _ => false
  | _ => true
  end.

Definition type_name (v : json) : string :=
  match v with
  | JNull => "NoneType"
  | JBool _ => "bool"
  | JInt _ => "int"
  | JFloat _ => "float"
  | JStr _ => "str"
  | JArr _ => "list"
  | JObj _ => "dict"
  end.

(** Decimal rendering of a natural number, as [repr] prints it. *)
Definition digit_of (n : nat) : ascii := ascii_of_nat (48 + n).

Fixpoint nat_digits (fuel n : nat) (acc : string) : string :=
  match fuel with
  | O => acc
  | S fuel' =>
      let acc' := String (digit_of (n mod 10)) acc in
      match n / 10 with
      | O => acc'
      | q => nat_digits fuel' q acc'
      end
  end.

Definition str_of_nat (n : nat) : string := nat_digits (S n) n "".

(** [str(e)] *)
Definition str_exn (e : exn) : string :=
  match e with
  | TypeError m | ValueError m | AttributeError m
  | OverflowError m | UnicodeDecodeError m | RecursionError m
  | LibraryError m | BaseException m => m
  | KeyError k => k
  end.

(** Computations that may raise. *)
Definition res (A : Type) : Type := (exn + A)%type.

Definition ok {A : Type} (a : A) : res A := inr a.
Definition raise {A : Type} (e : exn) : res A := inl e.

Definition bind {A B : Type} (m : res A) (k : A -> res B) : res B :=
  match m with
  | inl e => inl e
  | inr a => k a
  end.

Notation "x <- m ;; k" := (bind m (fun x => k))
  (at level 61, m at next level, right associativity).
Notation "' p <- m ;; k" := (bind m (fun p => k))
  (at level 61, p pattern, m at next level, right associativity).

(** ** Python dictionaries: insertion-ordered association lists *)

Section Dict.
Context {K V : Type}.
Variable eqb : K -> K -> bool.

Fixpoint dict_get (d : list (K * V)) (k : K) : option V :=
  match d with
  | [] => None
  | (k', v) :: d' => if eqb k' k then Some v else dict_get d' k
  end.

(** [d[k] = v]: overwrite in place, or append as the newest entry. *)
Fixpoint dict_set (d : list (K * V)) (k : K) (v : V) : list (K * V) :=
  match d with
  | [] => [(k, v)]
  | (k', v') :: d' =>
      if eqb k' k then (k', v) :: d' else (k', v') :: dict_set d' k v
  end.

Definition dict_mem (d : list (K * V)) (k : K) : bool :=
  match dict_get d k with
  | Some _ => true
  | None => false
  end.

Definition dict_of_pairs (kvs : list (K * V)) : list (K * V) :=
  fold_left (fun d kv => dict_set d (fst kv) (snd kv)) kvs [].

Definition dict_keys (d : list (K * V)) : list K := map fst d.
Definition dict_values (d : list (K * V)) : list V := map snd d.
End Dict.

(** The dictionary that [json.load] builds for a JSON object: later
    duplicates of a key overwrite the value, the key keeps its place. *)
Definition obj_dict (fields : list (string * json)) : list (string * json) :=
  dict_of_pairs String.eqb fields.

(** [input_data.get(key, default)] *)
Definition obj_get (fields : list (string * json)) (key : string)
    (default : json) : json :=
  match dict_get String.eqb (obj_dict fields) key with
  | Some v => v
  | None => default
  end.

(** ** Built-in operations the script applies to JSON values *)

(** Truthiness, as used by [weight or 1.0]. *)
Definition truthy (v : json) : bool :=
  match v with
  | JNull => false
  | JBool b => b
  | JInt z => negb (Z.eqb z 0%Z)
  | JFloat (S754_zero _) => false
  | JFloat _ => true
  | JStr s => negb (String.eqb s "")
  | JArr l => match l with [] => false | _ => true end
  | JObj kvs => match kvs with [] => false | _ => true end
  end.

Fixpoint chars (s : string) : list json :=
  match s with
  | EmptyString => []
  | String c s' => JStr (String c EmptyString) :: chars s'
  end.

(** The items produced by iterating a value ([for x in v], unpacking). *)
Definition py_iter (v : json) : res (list json) :=
  match v with
  | JArr l => ok l
  | JStr s => ok (chars s)
  | JObj kvs => ok (map JStr (dict_keys (obj_dict kvs)))
  | _ => raise (TypeError ("'" ++ type_name v ++ "' object is not iterable"))
  end.

(** [len(v)] *)
Definition py_len (v : json) : res nat :=
  match v with
  | JArr l => ok (List.length l)
  | JStr s => ok (String.length s)
  | JObj kvs => ok (List.length (obj_dict kvs))
  | _ => raise (TypeError ("object of type '" ++ type_name v ++ "' has no len()"))
  end.

(** [float(z)] for a Python [int]: round to nearest even, and raise when
    the integer is beyond the largest finite double. *)
Definition float_of_int (z : Z) : res pyfloat :=
  match binary_normalize prec64 emax64 z 0%Z false with
  | S754_infinity _ => raise (OverflowError "int too large to convert to float")
  | f => ok f
  end.

Definition float_of_bool (b : bool) : pyfloat :=
  if b then one else S754_zero false.

(** ** Dictionary keys: Python equality on hashable values

    [vertex_ids] and the [set] of the statistics compare identifiers the
    way Python dictionaries do: [True == 1 == 1.0], integers and floats are
    compared by exact value, [0.0 == -0.0], and the single [NaN] object of
    the [json] module is found again through identity. *)

Inductive pykey : Type :=
| KNone
| KNum (q : Q)
| KInf (negative : bool)
| KNan
| KStr (s : string).

(** The exact rational value of a finite double [(-1)^s * m * 2^e]. *)
Definition float_val (s : bool) (m : positive) (e : Z) : Q :=
  match e with
  | Z0 => inject_Z (cond_Zopp s (Zpos m))
  | Zpos p => inject_Z (cond_Zopp s (Zpos m) * 2 ^ Zpos p)%Z
  | Zneg p => Qmake (cond_Zopp s (Zpos m)) (2 ^ p)%positive
  end.

Definition float_key (f : pyfloat) : pykey :=
  match f with
  | S754_zero _ => KNum 0%Q
  | S754_infinity s => KInf s
  | S754_nan => KNan
  | S754_finite s m e => KNum (float_val s m e)
  end.

(** [None] for the unhashable values (lists and dicts). *)
Definition key_of (v : json) : option pykey :=
  match v with
  | JNull => Some KNone
  | JBool b => Some (KNum (if b then 1%Q else 0%Q))
  | JInt z => Some (KNum (inject_Z z))
  | JFloat f => Some (float_key f)
  | JStr s => Some (KStr s)
  | JArr _ | JObj _ => None
  end.

Definition pykey_eqb (a b : pykey) : bool :=
  match a, b with
  | KNone, KNone => true
  | KNum p, KNum q => Qeq_bool p q
  | KInf s, KInf t => Bool.eqb s t
  | KNan, KNan => true
  | KStr s, KStr t => String.eqb s t
  | _, _ => false
  end.

Definition key_eqb (v w : json) : bool :=
  match key_of v, key_of w with
  | Some a, Some b => pykey_eqb a b
  | _, _ => false
  end.

(** [hash(v)], which every dictionary or set operation performs first. *)
Definition py_hash (v : json) : res unit :=
  match key_of v with
  | Some _ => ok tt
  | None => raise (TypeError ("unhashable type: '" ++ type_name v ++ "'"))
  end.

(** [x or y] *)
Definition py_or (x y : json) : json := if truthy x then x else y.

(** ** The libraries and the runtime the script calls into *)

Inductive event : Type :=
| IgraphGraph (n : nat) (edges : list (nat * nat))
| SetEdgeWeights (weights : list pyfloat)
| FindPartition (weights : list pyfloat) (resolution n_iterations : json).

Definition edge_tuple : Type := (json * json * pyfloat)%type.

Record community : Type := mkCommunity {
  level : Z;
  entity_ids : list json
}.

Record stats : Type := mkStats {
  vertex_count : nat;
  edge_count : nat;
  community_count : nat
}.

Record result : Type := mkResult {
  communities : list community;
  result_stats : stats
}.

(** What the process leaves behind.  [print(json.dumps(result))] writes one
    line to stdout; the two handlers write [{"error": msg}] to stderr and
    exit with status 1; an exception that no handler catches (the first
    catches [JSONDecodeError] only, the second [Exception] only, and lines
    98-110 run outside both) ends the interpreter with a traceback on
    stderr and status 1. *)
Inductive stderr_line : Type :=
| ErrorJson (msg : string)
| Traceback (e : exn).

Record process : Type := mkProcess {
  calls : list event;
  stdout : list result;
  stderr : list stderr_line;
  exit_status : nat
}.

(** [json.load(sys.stdin)]: a [JSONDecodeError] with its text; another
    exception, which line 94 does not catch ([UnicodeDecodeError] for bytes
    that are not UTF-8, [RecursionError] for nesting that is too deep,
    [ValueError] for an integer of more than 4300 digits); or a value. *)
Inductive stdin : Type :=
| Unparseable (msg : string)
| LoadError (e : exn)
| Document (input_data : json).

Fixpoint fold_res {A B : Type} (f : A -> B -> res A) (l : list B) (a : A)
    : res A :=
  match l with
  | [] => ok a
  | b :: l' => a' <- f a b ;; fold_res f l' a'
  end.

Fixpoint map_res {A B : Type} (f : A -> res B) (l : list A) : res (list B) :=
  match l with
  | [] => ok []
  | a :: l' => b <- f a ;; bs <- map_res f l' ;; ok (b :: bs)
  end.

Section Script.

(** [float(s)] of the Python runtime for a string [s]. *)
Variable float_of_str : string -> res pyfloat.

(** The state of leidenalg's random generator, which the script neither
    sets nor sees. *)
Variable rng : Type.

(** [la.find_partition(g, la.RBConfigurationVertexPartition, ...)] on the
    graph with [n] vertices, followed by [.membership]; it may raise.  The
    two igraph calls before it, [ig.Graph(n, edges)] and the assignment of
    the edge weights, are recorded as events only: the arguments the script
    builds for them are always in range (lemma [graph_arguments]). *)
Variable find_partition :
  rng -> nat -> list (nat * nat) -> list pyfloat -> json -> json ->
  res (list nat).

(** [float(v)] *)
Definition py_float (v : json) : res pyfloat :=
  match v with
  | JBool b => ok (float_of_bool b)
  | JInt z => float_of_int z
  | JFloat f => ok f
  | JStr s => float_of_str s
  | _ => raise (TypeError
           ("float() argument must be a string or a real number, not '"
            ++ type_name v ++ "'"))
  end.

(** *** [main], lines 102-110: one edge *)

Definition unpack_error (expected got : nat) : exn :=
  if Nat.ltb got expected
  then ValueError ("not enough values to unpack (expected "
                   ++ str_of_nat expected ++ ", got " ++ str_of_nat got ++ ")")
  else ValueError ("too many values to unpack (expected "
                   ++ str_of_nat expected ++ ")").

Definition convert_edge (edge : json) : res edge_tuple :=
  n <- py_len edge ;;
  if Nat.eqb n 2 then
    items <- py_iter edge ;;
    match items with
    | [source; target] =>
        let weight := JFloat one in
        w <- py_float (py_or weight (JFloat one)) ;;
        ok (source, target, w)
    | _ => raise (unpack_error 2 (List.length items))
    end
  else
    items <- py_iter edge ;;
    match items with
    | [source; target; weight] =>
        w <- py_float (py_or weight (JFloat one)) ;;
        ok (source, target, w)
    | _ => raise (unpack_error 3 (List.length items))
    end.

Definition convert_edges (edges : json) : res (list edge_tuple) :=
  es <- py_iter edges ;;
  map_res convert_edge es.

(** *** [detect_communities], lines 46-56: numbering the vertices *)

Definition vertex_table : Type := list (json * nat).

(** [if v not in vertex_ids: vertex_ids[v] = len(vertex_ids)] *)
Definition intern (vertex_ids : vertex_table) (v : json) : res vertex_table :=
  _ <- py_hash v ;;
  if dict_mem key_eqb vertex_ids v then ok vertex_ids
  else ok (dict_set key_eqb vertex_ids v (List.length vertex_ids)).

(** [vertex_ids[v]]; the script reads it only after [v] was entered. *)
Definition vertex_index (vertex_ids : vertex_table) (v : json) : res nat :=
  match dict_get key_eqb vertex_ids v with
  | Some i => ok i
  | None => raise (KeyError (type_name v))
  end.

Definition index_state : Type :=
  (vertex_table * list (nat * nat) * list pyfloat)%type.

Definition index_step (st : index_state) (e : edge_tuple) : res index_state :=
  let '(vertex_ids, edge_tuples, weights) := st in
  let '(source, target, weight) := e in
  vertex_ids <- intern vertex_ids source ;;
  vertex_ids <- intern vertex_ids target ;;
  si <- vertex_index vertex_ids source ;;
  ti <- vertex_index vertex_ids target ;;
  ok (vertex_ids, edge_tuples ++ [(si, ti)], weights ++ [weight]).

Definition index_edges (edges : list edge_tuple) : res index_state :=
  fold_res index_step edges ([], [], []).

(** [{v: k for k, v in vertex_ids.items()}] *)
Definition reverse_table (vertex_ids : vertex_table) : list (nat * json) :=
  dict_of_pairs Nat.eqb (map (fun kv => (snd kv, fst kv)) vertex_ids).

(** *** [detect_communities], lines 75-79: grouping by community *)

Definition group_step (id_to_vertex : list (nat * json))
    (by_id : list (nat * list json)) (iv : nat * nat)
    : res (list (nat * list json)) :=
  let '(vertex_idx, community_id) := iv in
  let by_id :=
    if dict_mem Nat.eqb by_id community_id then by_id
    else dict_set Nat.eqb by_id community_id [] in
  match dict_get Nat.eqb by_id community_id with
  | None => raise (KeyError (str_of_nat community_id))
  | Some members =>
      match dict_get Nat.eqb id_to_vertex vertex_idx with
      | None => raise (KeyError (str_of_nat vertex_idx))
      | Some v => ok (dict_set Nat.eqb by_id community_id (members ++ [v]))
      end
  end.

(** [enumerate(l)] *)
Definition enumerate {A : Type} (l : list A) : list (nat * A) :=
  combine (seq 0 (List.length l)) l.

Definition group_vertices (id_to_vertex : list (nat * json))
    (membership : list nat) : res (list (nat * list json)) :=
  fold_res (group_step id_to_vertex) (enumerate membership) [].

(** *** [detect_communities] *)

Definition run (A : Type) : Type := (list event * res A)%type.

Definition detect_communities (seed : rng) (edges : list edge_tuple)
    (resolution n_iterations : json) : run (list community) :=
  match edges with
  | [] => ([], ok [])
  | _ :: _ =>
      match index_edges edges with
      | inl e => ([], raise e)
      | inr (vertex_ids, edge_tuples, weights) =>
          let id_to_vertex := reverse_table vertex_ids in
          let n := List.length vertex_ids in
          let trace :=
            [IgraphGraph n edge_tuples;
             SetEdgeWeights weights;
             FindPartition weights resolution n_iterations] in
          (trace,
           membership <- find_partition seed n edge_tuples weights
                           resolution n_iterations ;;
           communities_by_id <- group_vertices id_to_vertex membership ;;
           ok (map (fun entity_ids => mkCommunity 0%Z entity_ids)
                   (dict_values communities_by_id)))
      end
  end.

(** *** [main] *)

(** [set(...)], as the list of its elements in insertion order. *)
Definition set_add (s : list json) (v : json) : res (list json) :=
  _ <- py_hash v ;;
  if existsb (fun u => key_eqb u v) s then ok s else ok (s ++ [v]).

Definition py_set (l : list json) : res (list json) :=
  fold_res set_add l [].

(** [v for e in edge_tuples for v in e[:2]] *)
Definition endpoints (edge_tuples : list edge_tuple) : list json :=
  flat_map (fun e => [fst (fst e); snd (fst e)]) edge_tuples.

(** Lines 98-110: what [main] does before it enters the [try] block. *)
Definition read_request (input_data : json)
    : res (list edge_tuple * json * json) :=
  match input_data with
  | JObj fields =>
      let edges := obj_get fields "edges" (JArr []) in
      let resolution := obj_get fields "resolution" (JFloat one) in
      let n_iterations := obj_get fields "n_iterations" (JInt (-1)%Z) in
      edge_tuples <- convert_edges edges ;;
      ok (edge_tuples, resolution, n_iterations)
  | _ => raise (AttributeError
           ("'" ++ type_name input_data ++ "' object has no attribute 'get'"))
  end.

(** Lines 112-131: the [try] block. *)
Definition report (seed : rng) (edge_tuples : list edge_tuple)
    (resolution n_iterations : json) : run result :=
  let (trace, r) := detect_communities seed edge_tuples resolution n_iterations in
  (trace,
   communities <- r ;;
   vertices <- py_set (endpoints edge_tuples) ;;
   ok (mkResult communities
         (mkStats (List.length vertices)
                  (List.length edge_tuples)
                  (List.length communities)))).

Definition main (seed : rng) (input : stdin) : process :=
  match input with
  | Unparseable msg =>
      mkProcess [] [] [ErrorJson ("Invalid JSON input: " ++ msg)] 1
  | LoadError e => mkProcess [] [] [Traceback e] 1
  | Document input_data =>
      match read_request input_data with
      | inl e => mkProcess [] [] [Traceback e] 1
      | inr (edge_tuples, resolution, n_iterations) =>
          match report seed edge_tuples resolution n_iterations with
          | (trace, inl e) =>
              (* [except Exception as e] *)
              mkProcess trace []
                [if is_exception e then ErrorJson (str_exn e) else Traceback e] 1
          | (trace, inr r) => mkProcess trace [r] [] 0
          end
      end
  end.

End Script.

Arguments py_float float_of_str v : assert.
Arguments convert_edge float_of_str edge : assert.
Arguments convert_edges float_of_str edges : assert.
Arguments read_request float_of_str input_data : assert.
Arguments detect_communities {rng} find_partition seed edges resolution n_iterations.
Arguments report {rng} find_partition seed edge_tuples resolution n_iterations.
Arguments main float_of_str {rng} find_partition seed input.

Arguments index_step st e : simpl never.
Arguments intern vertex_ids v : simpl never.
Arguments set_add s v : simpl never.
Arguments group_step id_to_vertex by_id iv : simpl never.

(** ** Vocabulary of the specification *)

(** The distinct identifiers of a sequence in first-seen order: the head
    stays, its later repetitions go. *)
Fixpoint first_seen (ids : list json) : list json :=
  match ids with
  | [] => []
  | v :: rest => v :: filter (fun u => negb (key_eqb v u)) (first_seen rest)
  end.

(** [seen_in seen u]: some entry of [seen] is the identifier [u]. *)
Definition seen_in (seen : list json) (u : json) : bool :=
  existsb (fun k => key_eqb k u) seen.

(** The pair of indices that a table gives the two ends of an edge. *)
Definition indexed_in (vt : vertex_table) (e : edge_tuple) (p : nat * nat) : Prop :=
  dict_get key_eqb vt (fst (fst e)) = Some (fst p) /\
  dict_get key_eqb vt (snd (fst e)) = Some (snd p).

(** How often the identifier [v] occurs in [l]. *)
Definition occurrences (v : json) (l : list json) : nat :=
  List.length (filter (fun u => key_eqb u v) l).

(** No two entries of [l] are the same identifier. *)
Fixpoint distinct_ids (l : list json) : Prop :=
  match l with
  | [] => True
  | v :: rest => (forall u, In u rest -> key_eqb v u = false) /\ distinct_ids rest
  end.

Definition hashable (v : json) : Prop := key_of v <> None.

(** The table pairs the distinct identifiers of the edges, in first-seen
    order, with 0 .. n-1, and the two tables are inverse to each other. *)
Definition numbered_first_seen (edges : list edge_tuple) (vt : vertex_table)
    : Prop :=
  let keys := first_seen (endpoints edges) in
  let n := List.length keys in
  vt = combine keys (seq 0 n) /\
  distinct_ids keys /\
  (forall v, In v (endpoints edges) ->
     exists i k, dict_get key_eqb vt v = Some i /\ i < n /\
                 dict_get Nat.eqb (reverse_table vt) i = Some k /\
                 key_eqb k v = true) /\
  (forall v w i, dict_get key_eqb vt v = Some i ->
                 dict_get key_eqb vt w = Some i -> key_eqb v w = true) /\
  (forall i, i < n ->
     exists k, dict_get Nat.eqb (reverse_table vt) i = Some k /\
               nth_error keys i = Some k /\
               In k (endpoints edges) /\
               dict_get key_eqb vt k = Some i).

(** [x] is at exactly one position of [l]. *)
Definition occurs_once {A : Type} (x : A) (l : list A) : Prop :=
  exists l1 l2, l = l1 ++ x :: l2 /\ ~ In x l1 /\ ~ In x l2.

(** Identifiers that are the same key are spelled the same; so it is when
    all of them are strings, or all of them integers. *)
Definition same_key_same_spelling (ids : list json) : Prop :=
  forall u v, In u ids -> In v ids -> key_eqb u v = true -> u = v.

(** What igraph asks of the arguments of [Graph] and of the weights. *)
Definition graph_arguments_fit (n : nat) (edges : list (nat * nat))
    (weights : list pyfloat) : Prop :=
  Forall (fun p => fst p < n /\ snd p < n) edges /\
  List.length weights = List.length edges.

(** All identifiers printed in the communities of a result. *)
Definition printed_ids (r : result) : list json :=
  flat_map entity_ids (communities r).

(** An edge that lines 104-110 cannot convert: it has no length, its
    length is neither 2 nor 3, or its third item is a truthy value that
    [float] refuses. *)
Inductive rejected_edge (float_of_str : string -> res pyfloat)
    : json -> Prop :=
| rejected_no_len edge e :
    py_len edge = inl e -> rejected_edge float_of_str edge
| rejected_shape edge n :
    py_len edge = inr n -> n <> 2 -> n <> 3 -> rejected_edge float_of_str edge
| rejected_weight edge source target weight e :
    py_iter edge = inr [source; target; weight] ->
    truthy weight = true ->
    py_float float_of_str weight = inl e ->
    rejected_edge float_of_str edge.

(** A request that lines 98-110 cannot read: it is not an object, its
    [edges] cannot be iterated, or one of the edges cannot be converted. *)
Inductive unreadable (float_of_str : string -> res pyfloat) : json -> Prop :=
| unreadable_not_object d :
    (forall fields, d <> JObj fields) -> unreadable float_of_str d
| unreadable_edges fields e :
    py_iter (obj_get fields "edges" (JArr [])) = inl e ->
    unreadable float_of_str (JObj fields)
| unreadable_edge fields es edge :
    py_iter (obj_get fields "edges" (JArr [])) = inr es ->
    In edge es ->
    rejected_edge float_of_str edge ->
    unreadable float_of_str (JObj fields).

(** The labels of a membership list in order of first appearance. *)
Fixpoint first_labels (membership : list nat) : list nat :=
  match membership with
  | [] => []
  | c :: rest => c :: filter (fun c' => negb (Nat.eqb c c')) (first_labels rest)
  end.

(** The vertices [vs] that carry the label [c], by increasing index. *)
Definition members_of (c : nat) (membership : list nat) (vs : list json)
    : list json :=
  map snd (filter (fun cv => Nat.eqb (fst cv) c) (combine membership vs)).

(** The dictionary of lines 75-79 for a membership list over the vertices
    [vs]: one entry per label, in order of first appearance. *)
Definition grouped (membership : list nat) (vs : list json)
    : list (nat * list json) :=
  map (fun c => (c, members_of c membership vs)) (first_labels membership).

(** The weights the specification calls invalid. *)
Definition negative_weight (f : pyfloat) : bool :=
  match f with
  | S754_finite true _ _ | S754_infinity true => true
  | _ => false
  end.

Definition non_finite_weight (f : pyfloat) : bool :=
  match f with
  | S754_infinity _ | S754_nan => true
  | _ => false
  end.

(** What leidenalg promises about [partition.membership]: one community
    label per vertex of the graph. *)
Definition labels_every_vertex {rng : Type}
    (find_partition : rng -> nat -> list (nat * nat) -> list pyfloat ->
                      json -> json -> res (list nat)) : Prop :=
  forall seed n edges weights resolution n_iterations membership,
    find_partition seed n edges weights resolution n_iterations = inr membership ->
    List.length membership = n.

(** ** Stand-ins used to run the script on concrete documents *)

(** A runtime whose [float] accepts no text at all. *)
Definition no_text_floats (s : string) : res pyfloat :=
  raise (ValueError ("could not convert string to float: '" ++ s ++ "'")).

(** A library that puts every vertex into community 0. *)
Definition one_block (seed : unit) (n : nat) (edges : list (nat * nat))
    (weights : list pyfloat) (resolution n_iterations : json)
    : res (list nat) :=
  ok (repeat 0 n).

(** A library whose answer is its random state: vertex [i] gets label
    [i mod seed]. *)
Definition by_seed (seed : nat) (n : nat) (edges : list (nat * nat))
    (weights : list pyfloat) (resolution n_iterations : json)
    : res (list nat) :=
  ok (map (fun i => i mod seed) (seq 0 n)).

(** A library that, like leidenalg, refuses weights that are negative or
    not finite with a bare [BaseException] (the text is the stand-in's),
    and otherwise puts every vertex into community 0. *)
Definition strict_block (seed : unit) (n : nat) (edges : list (nat * nat))
    (weights : list pyfloat) (resolution n_iterations : json)
    : res (list nat) :=
  if existsb (fun w => negative_weight w || non_finite_weight w) weights
  then raise (BaseException "weights must be finite and not negative")
  else ok (repeat 0 n).

(** A library that always fails. *)
Definition broken (seed : unit) (n : nat) (edges : list (nat * nat))
    (weights : list pyfloat) (resolution n_iterations : json)
    : res (list nat) :=
  raise (LibraryError "partition failed").

Definition minus_one : pyfloat := S754_finite true 4503599627370496 (-52)%Z.

Definition pair_edge (a b : json) : json := JArr [a; b].
Definition triple_edge (a b w : json) : json := JArr [a; b; w].

Definition request (edges : list json) : stdin :=
  Document (JObj [("edges", JArr edges)]).

(** A library that answers with a fixed membership list. *)
Definition fixed_membership (membership : list nat) (seed : unit) (n : nat)
    (edges : list (nat * nat)) (weights : list pyfloat)
    (resolution n_iterations : json) : res (list nat) :=
  ok membership.

(** The path a - b - c. *)
Definition ab_bc : list json :=
  [pair_edge (JStr "a") (JStr "b"); pair_edge (JStr "b") (JStr "c")].

Definition ab_bc_tuples : list edge_tuple :=
  [(JStr "a", JStr "b", one); (JStr "b", JStr "c", one)].

(** Two disjoint triangles on the integers 0 .. 5. *)
Definition int_edge (a b : Z) : json := pair_edge (JInt a) (JInt b).

Definition two_triangles : list json :=
  [int_edge 0 1; int_edge 1 2; int_edge 2 0;
   int_edge 3 4; int_edge 4 5; int_edge 5 3].

Definition two_triangles_request : stdin :=
  Document (JObj [("edges", JArr two_triangles); ("resolution", JFloat one)]).


(** One edge with a single element. *)
Definition short_edge_request : stdin := request [JArr [JInt 1]].

(** * Properties *)

(** ** Identifier equality is an equivalence on hashable values *)

Lemma pykey_eqb_refl (a : pykey) : pykey_eqb a a = true.
Proof.
  destruct a; simpl; trivial.
  - apply Qeq_bool_refl.
  - apply Bool.eqb_reflx.
  - apply String.eqb_refl.
Qed.

Lemma pykey_eqb_sym (a b : pykey) : pykey_eqb a b = pykey_eqb b a.
Proof.
  destruct a, b; simpl; trivial.
  - destruct (Qeq_bool q q0) eqn:E1, (Qeq_bool q0 q) eqn:E2; trivial.
    + apply Qeq_bool_iff in E1. symmetry in E1. apply Qeq_bool_iff in E1. congruence.
    + apply Qeq_bool_iff in E2. symmetry in E2. apply Qeq_bool_iff in E2. congruence.
  - destruct negative, negative0; reflexivity.
  - apply String.eqb_sym.
Qed.

Lemma pykey_eqb_trans (a b c : pykey) :
  pykey_eqb a b = true -> pykey_eqb b c = true -> pykey_eqb a c = true.
Proof.
  destruct a, b; simpl; try discriminate; destruct c; simpl; try discriminate; trivial.
  - intros H1 H2. apply Qeq_bool_iff in H1, H2. apply Qeq_bool_iff.
    now rewrite H1.
  - intros H1 H2. apply Bool.eqb_prop in H1, H2. subst. apply Bool.eqb_reflx.
  - intros H1 H2. apply String.eqb_eq in H1, H2. subst. apply String.eqb_refl.
Qed.

Lemma key_eqb_refl (v : json) : hashable v -> key_eqb v v = true.
Proof.
  unfold key_eqb, hashable. destruct (key_of v); [intros _|congruence].
  apply pykey_eqb_refl.
Qed.

Lemma key_eqb_sym (v w : json) : key_eqb v w = key_eqb w v.
Proof.
  unfold key_eqb. destruct (key_of v), (key_of w); trivial. apply pykey_eqb_sym.
Qed.

Lemma key_eqb_trans (u v w : json) :
  key_eqb u v = true -> key_eqb v w = true -> key_eqb u w = true.
Proof.
  unfold key_eqb.
  destruct (key_of u), (key_of v), (key_of w); try discriminate.
  apply pykey_eqb_trans.
Qed.

(** Two identifiers equal to a third are equal to each other. *)
Lemma key_eqb_join (u v w : json) :
  key_eqb u w = true -> key_eqb v w = true -> key_eqb u v = true.
Proof.
  intros H1 H2. rewrite key_eqb_sym in H2. eapply key_eqb_trans; eassumption.
Qed.

Lemma py_hash_ok (v : json) : hashable v -> py_hash v = ok tt.
Proof. unfold hashable, py_hash. destruct (key_of v); congruence. Qed.

Lemma py_hash_inv (v : json) (u : unit) : py_hash v = inr u -> hashable v.
Proof. unfold hashable, py_hash. destruct (key_of v); [congruence | discriminate]. Qed.

(** On strings and on integers the identifier equality is the usual one. *)
Lemma key_eqb_str (s t : string) : key_eqb (JStr s) (JStr t) = String.eqb s t.
Proof. reflexivity. Qed.

Lemma key_eqb_int (a b : Z) : key_eqb (JInt a) (JInt b) = Z.eqb a b.
Proof.
  unfold key_eqb; simpl.
  destruct (Z.eqb_spec a b) as [->|N].
  - apply Qeq_bool_refl.
  - destruct (Qeq_bool (inject_Z a) (inject_Z b)) eqn:E; trivial.
    apply Qeq_bool_iff in E. unfold Qeq in E. simpl in E. lia.
Qed.

(** ** Lengths and items of iterable values agree *)

Lemma chars_length (s : string) : List.length (chars s) = String.length s.
Proof. induction s as [|c s IH]; simpl; congruence. Qed.

Lemma py_iter_len (v : json) (items : list json) :
  py_iter v = inr items -> py_len v = inr (List.length items).
Proof.
  destruct v; simpl; try discriminate; intros [= <-].
  - now rewrite chars_length.
  - reflexivity.
  - unfold dict_keys. now rewrite !length_map.
Qed.

Lemma py_len_iter (v : json) (n : nat) :
  py_len v = inr n -> exists items, py_iter v = inr items /\ List.length items = n.
Proof.
  destruct v; simpl; try discriminate; intros [= <-]; eexists; split;
    try reflexivity.
  - apply chars_length.
  - unfold dict_keys. now rewrite !length_map.
Qed.

Lemma map_res_fails {A B : Type} (f : A -> res B) (l : list A) (x : A) (e : exn) :
  In x l -> f x = inl e -> exists e', map_res f l = inl e'.
Proof.
  induction l as [|a l IH]; simpl; [tauto|].
  intros [->|Hin] Hx.
  - rewrite Hx. simpl. eauto.
  - destruct (f a) as [e0|b]; simpl; [eauto|].
    destruct (IH Hin Hx) as [e' ->]. simpl. eauto.
Qed.

Lemma map_res_inr {A B : Type} (f : A -> res B) (l : list A) (ys : list B) :
  map_res f l = inr ys -> Forall2 (fun x y => f x = inr y) l ys.
Proof.
  revert ys. induction l as [|a l IH]; simpl; intros ys.
  - intros [= <-]. constructor.
  - destruct (f a) as [e|b] eqn:Ea; simpl; [discriminate|].
    destruct (map_res f l) as [e|bs]; simpl; [discriminate|].
    intros [= <-]. constructor; auto.
Qed.

Section Conversion.

Variable float_of_str : string -> res pyfloat.

Lemma convert_pair (edge source target : json) :
  py_iter edge = inr [source; target] ->
  convert_edge float_of_str edge = ok (source, target, one).
Proof.
  intros H. unfold convert_edge.
  rewrite (py_iter_len _ _ H). simpl. rewrite H. reflexivity.
Qed.

Lemma convert_triple (edge source target weight : json) :
  py_iter edge = inr [source; target; weight] ->
  convert_edge float_of_str edge =
    (w <- py_float float_of_str (py_or weight (JFloat one)) ;;
     ok (source, target, w)).
Proof.
  intros H. unfold convert_edge.
  rewrite (py_iter_len _ _ H). simpl. rewrite H. reflexivity.
Qed.

Lemma convert_rejected (edge : json) :
  rejected_edge float_of_str edge -> exists e, convert_edge float_of_str edge = inl e.
Proof.
  intros [edge' e H | edge' n H N2 N3 | edge' s t w e H T F].
  - unfold convert_edge. rewrite H. simpl. eauto.
  - unfold convert_edge. rewrite H. simpl.
    destruct (py_len_iter _ _ H) as (items & -> & L). simpl.
    destruct (Nat.eqb_spec n 2) as [|_]; [contradiction|].
    destruct items as [|a [|b [|c [|d items]]]]; simpl in *; eauto.
    congruence.
  - rewrite (convert_triple _ _ _ _ H). unfold py_or. rewrite T, F. simpl. eauto.
Qed.

Lemma convert_accepted (edge : json) (e : exn) :
  convert_edge float_of_str edge = inl e -> rejected_edge float_of_str edge.
Proof.
  unfold convert_edge. destruct (py_len edge) as [e0|n] eqn:L; simpl.
  - intros _. eapply rejected_no_len; eassumption.
  - destruct (py_len_iter _ _ L) as (items & I & Len). rewrite I. simpl.
    destruct (Nat.eqb_spec n 2) as [->|N2].
    + destruct items as [|a [|b [|c items]]]; simpl in Len; discriminate.
    + destruct items as [|a [|b [|c [|d items]]]]; simpl in Len;
        try (intros _; eapply rejected_shape; [eassumption|lia|lia]).
      unfold py_or. destruct (truthy c) eqn:T.
      * destruct (py_float float_of_str c) as [e1|w] eqn:F; simpl; [|discriminate].
        intros _. eapply rejected_weight; eassumption.
      * simpl. discriminate.
Qed.

End Conversion.

(** ** Dictionaries *)

Section DictFacts.
Context {K V : Type}.
Variable eqb : K -> K -> bool.

Lemma dict_mem_keys (d : list (K * V)) (k : K) :
  dict_mem eqb d k = existsb (fun k' => eqb k' k) (dict_keys d).
Proof.
  unfold dict_mem. induction d as [|[k' v] d IH]; simpl; trivial.
  destruct (eqb k' k); simpl; trivial.
Qed.

Lemma dict_get_app (d d' : list (K * V)) (k : K) :
  dict_get eqb (d ++ d') k =
    match dict_get eqb d k with
    | Some v => Some v
    | None => dict_get eqb d' k
    end.
Proof.
  induction d as [|[k' v] d IH]; simpl; trivial.
  destruct (eqb k' k); trivial.
Qed.

Lemma dict_set_absent (d : list (K * V)) (k : K) (v : V) :
  dict_get eqb d k = None -> dict_set eqb d k v = d ++ [(k, v)].
Proof.
  induction d as [|[k' v'] d IH]; simpl; trivial.
  destruct (eqb k' k); [discriminate|]. intros H. now rewrite IH.
Qed.

Lemma dict_get_In (d : list (K * V)) (k : K) (v : V) :
  dict_get eqb d k = Some v -> exists k', In (k', v) d /\ eqb k' k = true.
Proof.
  induction d as [|[k' v'] d IH]; simpl; [discriminate|].
  destruct (eqb k' k) eqn:E.
  - intros [= ->]. eauto.
  - intros H. destruct (IH H) as (k0 & Hin & Hk). eauto.
Qed.
End DictFacts.

(** A table whose keys are numbered consecutively from [a] is read by
    position. *)
Lemma dict_get_numbered {V : Type} (l : list (nat * V)) (a i : nat) :
  dict_keys l = seq a (List.length l) ->
  dict_get Nat.eqb l i =
    if Nat.leb a i then nth_error (dict_values l) (i - a) else None.
Proof.
  revert a. induction l as [|[k v] l IH]; simpl; intros a.
  - intros _. destruct (Nat.leb a i); trivial. now destruct (i - a).
  - intros [= -> Hl]. rewrite (IH _ Hl).
    destruct (Nat.eqb_spec a i) as [->|N].
    + rewrite Nat.leb_refl, Nat.sub_diag. reflexivity.
    + destruct (Nat.leb_spec a i) as [Le|Gt].
      * destruct (Nat.leb_spec (S a) i); [|lia].
        replace (i - a) with (S (i - S a)) by lia. reflexivity.
      * destruct (Nat.leb_spec (S a) i); [lia|]. reflexivity.
Qed.

(** Filling a dictionary with consecutively numbered keys leaves the
    pairs as they come. *)
Lemma dict_fill_numbered {V : Type} (l acc : list (nat * V)) (a : nat) :
  dict_keys l = seq a (List.length l) ->
  (forall k, In k (dict_keys acc) -> k < a) ->
  fold_left (fun d kv => dict_set Nat.eqb d (fst kv) (snd kv)) l acc = acc ++ l.
Proof.
  revert acc a. induction l as [|[k v] l IH]; simpl; intros acc a.
  - intros _ _. now rewrite app_nil_r.
  - intros [= -> Hl] Hacc.
    rewrite dict_set_absent.
    + rewrite (IH _ (S a) Hl).
      * now rewrite <- app_assoc.
      * intros k. unfold dict_keys. rewrite map_app, in_app_iff. simpl.
        intros [H|[<-|[]]]; [apply Hacc in H|]; lia.
    + destruct (dict_get Nat.eqb acc a) as [v0|] eqn:G; trivial.
      apply dict_get_In in G. destruct G as (k' & Hin & Hk).
      apply Nat.eqb_eq in Hk. subst k'.
      assert (a < a); [|lia].
      apply Hacc. unfold dict_keys. apply in_map_iff. now exists (a, v0).
Qed.

(** ** First-seen order *)

Lemma filter_absorb {A : Type} (p q : A -> bool) (l : list A) :
  (forall x, p x = true -> q x = true) -> filter p (filter q l) = filter p l.
Proof.
  intros H. induction l as [|x l IH]; simpl; trivial.
  destruct (q x) eqn:Q; simpl.
  - now rewrite IH.
  - destruct (p x) eqn:P; trivial. apply H in P. congruence.
Qed.

Lemma filter_both {A : Type} (p q : A -> bool) (l : list A) :
  filter p (filter q l) = filter (fun x => p x && q x) l.
Proof.
  induction l as [|x l IH]; simpl; trivial.
  destruct (q x); simpl.
  - rewrite andb_true_r. destruct (p x); now rewrite IH.
  - now rewrite andb_false_r.
Qed.

Lemma seen_in_snoc (seen : list json) (a u : json) :
  seen_in (seen ++ [a]) u = seen_in seen u || key_eqb a u.
Proof. unfold seen_in. rewrite existsb_app. simpl. now rewrite orb_false_r. Qed.

Lemma seen_in_same (seen : list json) (a u : json) :
  seen_in seen a = true -> key_eqb a u = true -> seen_in seen u = true.
Proof.
  unfold seen_in. rewrite !existsb_exists. intros (k & Hin & Hk) Hu.
  exists k. split; trivial. eapply key_eqb_trans; eassumption.
Qed.

Lemma first_seen_incl (ids : list json) : incl (first_seen ids) ids.
Proof.
  induction ids as [|v ids IH]; simpl; [easy|].
  intros u [<-|H]; [now left|]. right. apply IH.
  apply filter_In in H. tauto.
Qed.

Lemma first_seen_distinct (ids : list json) : distinct_ids (first_seen ids).
Proof.
  induction ids as [|v ids IH]; simpl; [trivial|]. split.
  - intros u H. apply filter_In in H. destruct H as [_ H].
    now apply negb_true_iff in H.
  - clear -IH. induction (first_seen ids) as [|x l IHl]; simpl; [trivial|].
    destruct IH as [Hx Hl]. destruct (negb (key_eqb v x)); simpl; auto.
    split; auto. intros u H. apply filter_In in H. apply Hx. tauto.
Qed.

(** Every identifier of the sequence has exactly one representative. *)
Lemma first_seen_occurrences (ids : list json) (v : json) :
  occurrences v (first_seen ids) = if seen_in ids v then 1 else 0.
Proof.
  unfold occurrences. induction ids as [|a ids IH]; simpl; trivial.
  destruct (key_eqb a v) eqn:E; simpl.
  - f_equal. rewrite filter_both.
    erewrite filter_ext; [now rewrite filter_false|].
    intros u. simpl. destruct (key_eqb u v) eqn:U; simpl; trivial.
    now rewrite (key_eqb_join _ _ _ E U).
  - rewrite filter_absorb; trivial.
    intros u U. destruct (key_eqb a u) eqn:A; trivial.
    rewrite (key_eqb_trans _ _ _ A U) in E. discriminate.
Qed.

Lemma seen_in_self (ids : list json) (v : json) :
  In v ids -> hashable v -> seen_in ids v = true.
Proof.
  intros Hin Hv. unfold seen_in. apply existsb_exists.
  exists v. split; trivial. now apply key_eqb_refl.
Qed.

(** The accumulating loop of the script computes [first_seen]. *)
Lemma py_set_from (ids seen : list json) :
  Forall hashable ids ->
  fold_res set_add ids seen =
    ok (seen ++ filter (fun u => negb (seen_in seen u)) (first_seen ids)).
Proof.
  revert seen. induction ids as [|a ids IH]; simpl; intros seen H.
  - now rewrite app_nil_r.
  - inversion H as [|? ? Ha Hids]; subst.
    unfold set_add at 1. rewrite (py_hash_ok _ Ha). simpl.
    fold (seen_in seen a). destruct (seen_in seen a) eqn:E; simpl.
    + rewrite (IH _ Hids). do 2 f_equal.
      rewrite filter_absorb; trivial.
      intros u U. apply negb_true_iff in U. apply negb_true_iff.
      destruct (key_eqb a u) eqn:A; trivial.
      rewrite (seen_in_same _ _ _ E A) in U. discriminate.
    + rewrite (IH _ Hids), <- app_assoc. simpl. do 3 f_equal.
      rewrite filter_both. apply filter_ext. intros u.
      now rewrite seen_in_snoc, negb_orb.
Qed.

Lemma filter_true {A : Type} (l : list A) : filter (fun _ => true) l = l.
Proof. induction l as [|x l IH]; simpl; congruence. Qed.

Lemma py_set_first_seen (ids : list json) :
  Forall hashable ids -> py_set ids = ok (first_seen ids).
Proof.
  intros H. unfold py_set. rewrite (py_set_from _ _ H). simpl.
  now rewrite filter_true.
Qed.

Lemma py_set_inv (ids seen out : list json) :
  fold_res set_add ids seen = inr out -> Forall hashable ids.
Proof.
  revert seen. induction ids as [|a ids IH]; simpl; intros seen; [constructor|].
  unfold set_add at 1. destruct (py_hash a) as [e|[]] eqn:Ha; simpl; [discriminate|].
  apply py_hash_inv in Ha.
  destruct (existsb _ seen); simpl; intros H; constructor; eauto.
Qed.

(** ** Numbering the vertices (lines 46-56) *)

Lemma intern_keys (vt vt' : vertex_table) (v : json) :
  intern vt v = inr vt' ->
  set_add (dict_keys vt) v = inr (dict_keys vt') /\
  (exists tail, vt' = vt ++ tail) /\
  (dict_values vt = seq 0 (List.length vt) ->
   dict_values vt' = seq 0 (List.length vt')) /\
  exists i, dict_get key_eqb vt' v = Some i.
Proof.
  unfold intern, set_add.
  destruct (py_hash v) as [e|[]] eqn:Hv; simpl; [discriminate|].
  apply py_hash_inv in Hv.
  rewrite dict_mem_keys.
  destruct (existsb _ (dict_keys vt)) eqn:E; intros [= <-].
  - repeat split.
    + exists []. now rewrite app_nil_r.
    + trivial.
    + rewrite <- dict_mem_keys in E. unfold dict_mem in E.
      destruct (dict_get key_eqb vt v); [eauto|discriminate].
  - rewrite <- dict_mem_keys in E. unfold dict_mem in E.
    destruct (dict_get key_eqb vt v) eqn:G; [discriminate|].
    rewrite (dict_set_absent _ _ _ _ G). repeat split.
    + unfold dict_keys. now rewrite map_app.
    + eauto.
    + intros Hvals. unfold dict_values in *.
      rewrite map_app, length_app, Hvals. simpl.
      now rewrite Nat.add_1_r, seq_S.
    + rewrite dict_get_app, G. simpl. rewrite (key_eqb_refl _ Hv). eauto.
Qed.

Lemma intern_total (vt : vertex_table) (v : json) :
  hashable v -> exists vt', intern vt v = inr vt'.
Proof.
  intros H. unfold intern. rewrite (py_hash_ok _ H). simpl.
  destruct (dict_mem key_eqb vt v); eauto.
Qed.

Lemma dict_get_extend (vt tail : vertex_table) (v : json) (i : nat) :
  dict_get key_eqb vt v = Some i -> dict_get key_eqb (vt ++ tail) v = Some i.
Proof. intros H. now rewrite dict_get_app, H. Qed.

Lemma intern_all_keys (ids : list json) (vt vt' : vertex_table) :
  fold_res intern ids vt = inr vt' ->
  fold_res set_add ids (dict_keys vt) = inr (dict_keys vt') /\
  (exists tail, vt' = vt ++ tail) /\
  (dict_values vt = seq 0 (List.length vt) ->
   dict_values vt' = seq 0 (List.length vt')).
Proof.
  revert vt. induction ids as [|a ids IH]; simpl; intros vt.
  - intros [= <-]. repeat split; trivial. exists []. now rewrite app_nil_r.
  - destruct (intern vt a) as [e|vt1] eqn:Ha; simpl; [discriminate|].
    intros H. apply intern_keys in Ha. destruct Ha as (Hk & [t1 ->] & Hv & _).
    rewrite Hk. simpl. destruct (IH _ H) as (Hk' & [t2 ->] & Hv').
    repeat split; auto. exists (t1 ++ t2). now rewrite app_assoc.
Qed.

Lemma intern_all_total (ids : list json) (vt : vertex_table) :
  Forall hashable ids -> exists vt', fold_res intern ids vt = inr vt'.
Proof.
  revert vt. induction ids as [|a ids IH]; simpl; intros vt H; [eauto|].
  inversion H as [|? ? Ha Hids]; subst.
  destruct (intern_total vt a Ha) as [vt1 ->]. simpl. auto.
Qed.

(** The table built from the empty one lists the distinct identifiers in
    first-seen order against 0, 1, 2, ... *)
Lemma intern_all_first_seen (ids : list json) (vt : vertex_table) :
  fold_res intern ids [] = inr vt ->
  dict_keys vt = first_seen ids /\
  dict_values vt = seq 0 (List.length vt).
Proof.
  intros H. destruct (intern_all_keys _ _ _ H) as (Hk & _ & Hv).
  split; [|now apply Hv].
  simpl in Hk. pose proof (py_set_inv _ _ _ Hk) as Hh.
  fold (py_set ids) in Hk. rewrite (py_set_first_seen _ Hh) in Hk.
  now inversion Hk.
Qed.

Lemma indexed_in_extend (vt tail : vertex_table) (l : list edge_tuple)
    (ps : list (nat * nat)) :
  Forall2 (indexed_in vt) l ps -> Forall2 (indexed_in (vt ++ tail)) l ps.
Proof.
  induction 1 as [|e p l ps [H1 H2] _ IH]; constructor; trivial.
  split; now apply dict_get_extend.
Qed.

Lemma index_step_inv (vt vt' : vertex_table) (et et' : list (nat * nat))
    (ws ws' : list pyfloat) (e : edge_tuple) :
  index_step (vt, et, ws) e = inr (vt', et', ws') ->
  fold_res intern [fst (fst e); snd (fst e)] vt = inr vt' /\
  (exists p, et' = et ++ [p] /\ indexed_in vt' e p) /\
  ws' = ws ++ [snd e].
Proof.
  destruct e as [[s t] w]. unfold index_step. simpl.
  destruct (intern vt s) as [e0|vt1] eqn:Hs; simpl; [discriminate|].
  destruct (intern vt1 t) as [e0|vt2] eqn:Ht; simpl; [discriminate|].
  unfold vertex_index.
  destruct (dict_get key_eqb vt2 s) as [si|] eqn:Gs; simpl; [|discriminate].
  destruct (dict_get key_eqb vt2 t) as [ti|] eqn:Gt; simpl; [|discriminate].
  intros [= <- <- <-]. repeat split.
  exists (si, ti). repeat split; assumption.
Qed.

Lemma index_step_total (vt : vertex_table) (et : list (nat * nat))
    (ws : list pyfloat) (e : edge_tuple) :
  hashable (fst (fst e)) -> hashable (snd (fst e)) ->
  exists st, index_step (vt, et, ws) e = inr st.
Proof.
  destruct e as [[s t] w]. unfold index_step. simpl. intros Hs Ht.
  destruct (intern_total vt s Hs) as [vt1 Is]. rewrite Is. simpl.
  destruct (intern_total vt1 t Ht) as [vt2 It]. rewrite It. simpl.
  unfold vertex_index.
  apply intern_keys in Is. destruct Is as (_ & _ & _ & [si Gs]).
  apply intern_keys in It. destruct It as (_ & [tail ->] & _ & [ti Gt]).
  rewrite (dict_get_extend _ tail _ _ Gs), Gt. simpl. eauto.
Qed.

Lemma index_from (edges : list edge_tuple) (vt vt' : vertex_table)
    (et et' : list (nat * nat)) (ws ws' : list pyfloat) :
  fold_res index_step edges (vt, et, ws) = inr (vt', et', ws') ->
  fold_res intern (endpoints edges) vt = inr vt' /\
  (exists new, et' = et ++ new /\ Forall2 (indexed_in vt') edges new) /\
  ws' = ws ++ map snd edges.
Proof.
  revert vt et ws. induction edges as [|e edges IH]; simpl; intros vt et ws.
  - unfold ok. intros [= <- <- <-]. repeat split; try now rewrite app_nil_r.
    exists []. split; [now rewrite app_nil_r|constructor].
  - destruct (index_step (vt, et, ws) e) as [e0|[[vt1 et1] ws1]] eqn:S1; simpl;
      [discriminate|].
    intros H. apply index_step_inv in S1.
    destruct S1 as (I1 & (p & -> & P) & ->).
    destruct (IH _ _ _ H) as (I2 & (new & -> & F) & ->).
    simpl in I1.
    destruct (intern vt (fst (fst e))) as [e0|va]; simpl in *; [discriminate|].
    destruct (intern va (snd (fst e))) as [e0|vb]; simpl in *; [discriminate|].
    injection I1 as ->. repeat split; trivial.
    + exists (p :: new). split; [now rewrite <- app_assoc|].
      constructor; trivial.
      destruct (intern_all_keys _ _ _ I2) as (_ & [tail ->] & _).
      destruct P as [P1 P2]. split; now apply dict_get_extend.
    + now rewrite <- app_assoc.
Qed.

Lemma index_total (edges : list edge_tuple) (st : index_state) :
  Forall hashable (endpoints edges) ->
  exists st', fold_res index_step edges st = inr st'.
Proof.
  revert st. induction edges as [|e edges IH]; simpl; intros st H; [eauto|].
  inversion H as [|? ? H1 H']; subst. inversion H' as [|? ? H2 H'']; subst.
  destruct st as [[vt et] ws].
  destruct (index_step_total vt et ws e H1 H2) as [st1 ->]. simpl. auto.
Qed.

Lemma intern_all_hashable (ids : list json) (vt vt' : vertex_table) :
  fold_res intern ids vt = inr vt' -> Forall hashable ids.
Proof.
  intros H. apply intern_all_keys in H. destruct H as (H & _).
  eapply py_set_inv; eassumption.
Qed.

(** ** The reverse table (line 59) *)

Lemma reverse_table_get (vt : vertex_table) (i : nat) :
  dict_values vt = seq 0 (List.length vt) ->
  dict_get Nat.eqb (reverse_table vt) i = nth_error (dict_keys vt) i.
Proof.
  intros Hv. unfold reverse_table, dict_of_pairs.
  assert (Hk : dict_keys (map (fun kv : json * nat => (snd kv, fst kv)) vt)
               = seq 0 (List.length (map (fun kv : json * nat => (snd kv, fst kv)) vt))).
  { unfold dict_keys. rewrite map_map, length_map. exact Hv. }
  rewrite (dict_fill_numbered _ [] 0 Hk); [|intros k []]. simpl.
  rewrite (dict_get_numbered _ 0 i Hk). simpl. rewrite Nat.sub_0_r.
  unfold dict_values, dict_keys. now rewrite map_map.
Qed.

(** ** Grouping by community (lines 75-79) *)

Lemma concat_set_member (d : list (nat * list json)) (k : nat)
    (members : list json) (v : json) :
  dict_get Nat.eqb d k = Some members ->
  Permutation (List.concat (dict_values (dict_set Nat.eqb d k (members ++ [v]))))
              (List.concat (dict_values d) ++ [v]).
Proof.
  induction d as [|[k' l] d IH]; simpl; [discriminate|].
  destruct (Nat.eqb k' k); simpl.
  - intros [= ->]. rewrite <- !app_assoc. apply Permutation_app_head.
    apply Permutation_app_comm.
  - intros H. rewrite <- app_assoc. apply Permutation_app_head. now apply IH.
Qed.

Lemma group_step_inv (itv : list (nat * json)) (by_id by_id' : list (nat * list json))
    (idx cid : nat) :
  group_step itv by_id (idx, cid) = inr by_id' ->
  exists v, dict_get Nat.eqb itv idx = Some v /\
    Permutation (List.concat (dict_values by_id')) (List.concat (dict_values by_id) ++ [v]).
Proof.
  unfold group_step.
  set (d := if dict_mem Nat.eqb by_id cid then by_id
            else dict_set Nat.eqb by_id cid []).
  assert (Hd : List.concat (dict_values d) = List.concat (dict_values by_id)).
  { subst d. unfold dict_mem.
    destruct (dict_get Nat.eqb by_id cid) eqn:G; trivial.
    rewrite (dict_set_absent _ _ _ _ G). unfold dict_values.
    rewrite map_app, concat_app. simpl. now rewrite app_nil_r. }
  destruct (dict_get Nat.eqb d cid) as [members|] eqn:G; [|discriminate].
  destruct (dict_get Nat.eqb itv idx) as [v|]; [|discriminate].
  intros [= <-]. exists v. split; trivial.
  rewrite <- Hd. now apply concat_set_member.
Qed.

Lemma group_from (itv : list (nat * json)) (membership : list nat) (a : nat)
    (by_id out : list (nat * list json)) :
  fold_res (group_step itv) (combine (seq a (List.length membership)) membership) by_id
    = inr out ->
  exists vs,
    Forall2 (fun i v => dict_get Nat.eqb itv i = Some v)
            (seq a (List.length membership)) vs /\
    Permutation (List.concat (dict_values out)) (List.concat (dict_values by_id) ++ vs).
Proof.
  revert a by_id. induction membership as [|cid m IH]; simpl; intros a by_id.
  - unfold ok. intros [= <-]. exists []. split; [constructor|].
    now rewrite app_nil_r.
  - destruct (group_step itv by_id (a, cid)) as [e|d] eqn:S1; simpl; [discriminate|].
    intros H. apply group_step_inv in S1. destruct S1 as (v & Gv & P1).
    destruct (IH _ _ H) as (vs & F & P2).
    exists (v :: vs). split; [now constructor|].
    rewrite P2. rewrite (Permutation_app_tail vs P1).
    now rewrite <- app_assoc.
Qed.

Lemma filter_permutation {A : Type} (f : A -> bool) (l l' : list A) :
  Permutation l l' -> Permutation (filter f l) (filter f l').
Proof.
  induction 1 as [|x l l' _ IH|x y l|l l' l'' _ IH1 _ IH2]; simpl.
  - constructor.
  - destruct (f x); auto.
  - destruct (f x), (f y); auto. constructor.
  - etransitivity; eassumption.
Qed.

Lemma flat_map_entity_ids (groups : list (list json)) :
  flat_map entity_ids (map (fun ids => mkCommunity 0 ids) groups) = List.concat groups.
Proof. induction groups as [|g gs IH]; simpl; congruence. Qed.

(** Reading a list by position 0, 1, ..., its length - 1 gives the list. *)
Lemma read_by_position {A : Type} (pre l vs : list A) :
  Forall2 (fun i v => nth_error (pre ++ l) i = Some v)
          (seq (List.length pre) (List.length l)) vs ->
  vs = l.
Proof.
  revert pre vs. induction l as [|x l IH]; simpl; intros pre vs H.
  - now inversion H.
  - inversion H as [|i v idxs vs' Hx Hrest]; subst. f_equal.
    + rewrite nth_error_app2 in Hx by lia. rewrite Nat.sub_diag in Hx.
      simpl in Hx. congruence.
    + apply (IH (pre ++ [x])).
      rewrite length_app, Nat.add_1_r, <- app_assoc. exact Hrest.
Qed.

Lemma read_positions_incl {A : Type} (l vs : list A) (a m : nat) :
  Forall2 (fun i v => nth_error l i = Some v) (seq a m) vs -> incl vs l.
Proof.
  intros H v Hin. apply (Forall2_flip) in H.
  revert Hin. induction H as [|x i vs' idxs Hx _ IH]; simpl; [tauto|].
  intros [<-|Hin]; [eapply nth_error_In; eassumption|auto].
Qed.

(** ** [index_edges] and [detect_communities] as a whole *)

Lemma index_edges_inv (edges : list edge_tuple) (vt : vertex_table)
    (et : list (nat * nat)) (ws : list pyfloat) :
  index_edges edges = inr (vt, et, ws) ->
  Forall hashable (endpoints edges) /\
  dict_keys vt = first_seen (endpoints edges) /\
  dict_values vt = seq 0 (List.length vt) /\
  Forall2 (indexed_in vt) edges et /\
  ws = map snd edges.
Proof.
  unfold index_edges. intros H. apply index_from in H.
  destruct H as (I & (new & -> & F) & ->).
  destruct (intern_all_first_seen _ _ I) as [K V].
  repeat split; trivial. eapply intern_all_hashable; eassumption.
Qed.

Lemma index_edges_total (edges : list edge_tuple) :
  Forall hashable (endpoints edges) ->
  exists vt et ws, index_edges edges = inr (vt, et, ws).
Proof.
  intros H. destruct (index_total edges ([], [], []) H) as [[[vt et] ws] E].
  now exists vt, et, ws.
Qed.

Section Detect.

Context {rng : Type}.
Variable find_partition :
  rng -> nat -> list (nat * nat) -> list pyfloat -> json -> json ->
  res (list nat).

Lemma detect_inv (seed : rng) (edges : list edge_tuple)
    (resolution n_iterations : json) (trace : list event)
    (cs : list community) :
  edges <> [] ->
  detect_communities find_partition seed edges resolution n_iterations
    = (trace, inr cs) ->
  exists vt et membership vs,
    index_edges edges = inr (vt, et, map snd edges) /\
    trace = [IgraphGraph (List.length vt) et;
             SetEdgeWeights (map snd edges);
             FindPartition (map snd edges) resolution n_iterations] /\
    find_partition seed (List.length vt) et (map snd edges)
      resolution n_iterations = inr membership /\
    Forall2 (fun i v => nth_error (first_seen (endpoints edges)) i = Some v)
            (seq 0 (List.length membership)) vs /\
    Permutation (flat_map entity_ids cs) vs /\
    Forall (fun c => level c = 0%Z) cs.
Proof.
  intros Hne. unfold detect_communities.
  destruct edges as [|e0 rest]; [congruence|].
  destruct (index_edges (e0 :: rest)) as [e|[[vt et] ws]] eqn:I; [discriminate|].
  destruct (index_edges_inv _ _ _ _ I) as (Hh & K & V & F & ->).
  destruct (find_partition seed (List.length vt) et (map snd (e0 :: rest))
              resolution n_iterations) as [e|membership] eqn:L; unfold bind;
    [discriminate|].
  destruct (group_vertices (reverse_table vt) membership) as [e|by_id] eqn:G;
    [discriminate|].
  unfold ok. intros [= <- <-].
  unfold group_vertices, enumerate in G. apply group_from in G.
  destruct G as (vs & Fv & P). simpl in P.
  exists vt, et, membership, vs. repeat split; trivial.
  - rewrite <- K. clear -Fv V.
    induction Fv as [|i v idxs vs' Hi _ IH]; constructor; trivial.
    now rewrite <- reverse_table_get.
  - now rewrite flat_map_entity_ids.
  - apply Forall_forall. intros c Hc. apply in_map_iff in Hc.
    now destruct Hc as (ids & <- & _).
Qed.

Lemma detect_hashable (seed : rng) (edges : list edge_tuple)
    (resolution n_iterations : json) (trace : list event)
    (cs : list community) :
  detect_communities find_partition seed edges resolution n_iterations
    = (trace, inr cs) ->
  Forall hashable (endpoints edges).
Proof.
  destruct edges as [|e0 rest]; [constructor|].
  intros H. apply detect_inv in H; [|discriminate].
  destruct H as (vt & et & m & vs & I & _).
  now apply index_edges_inv in I.
Qed.

(** The call into the informal part happens at most once, after the
    table is complete; a failure before it leaves no trace. *)
Lemma detect_trace (seed : rng) (edges : list edge_tuple)
    (resolution n_iterations : json) :
  fst (detect_communities find_partition seed edges resolution n_iterations) =
    match edges, index_edges edges with
    | _ :: _, inr (vt, et, ws) =>
        [IgraphGraph (List.length vt) et; SetEdgeWeights ws;
         FindPartition ws resolution n_iterations]
    | _, _ => []
    end.
Proof.
  unfold detect_communities. destruct edges as [|e0 rest]; trivial.
  destruct (index_edges (e0 :: rest)) as [e|[[vt et] ws]]; trivial.
Qed.

Lemma report_inv (seed : rng) (edges : list edge_tuple)
    (resolution n_iterations : json) :
  report find_partition seed edges resolution n_iterations =
    match detect_communities find_partition seed edges resolution n_iterations with
    | (trace, inl e) => (trace, inl e)
    | (trace, inr cs) =>
        (trace, inr (mkResult cs
                       (mkStats (List.length (first_seen (endpoints edges)))
                                (List.length edges) (List.length cs))))
    end.
Proof.
  unfold report.
  destruct (detect_communities find_partition seed edges resolution n_iterations)
    as [trace [e|cs]] eqn:D; simpl; trivial.
  apply detect_hashable in D. now rewrite (py_set_first_seen _ D).
Qed.

End Detect.

(** The only exception the numbering loop can raise is the [TypeError] of
    an unhashable identifier: the two reads of [vertex_ids] never miss. *)
Lemma intern_error (vt : vertex_table) (v : json) (e : exn) :
  intern vt v = inl e -> exists msg, e = TypeError msg.
Proof.
  unfold intern, py_hash. destruct (key_of v); simpl.
  - destruct (dict_mem key_eqb vt v); discriminate.
  - intros [= <-]. eauto.
Qed.

Lemma index_step_error (st : index_state) (edge : edge_tuple) (e : exn) :
  index_step st edge = inl e -> exists msg, e = TypeError msg.
Proof.
  destruct st as [[vt et] ws], edge as [[s t] w]. unfold index_step. simpl.
  destruct (intern vt s) as [e0|vt1] eqn:Is; simpl.
  { intros [= <-]. eapply intern_error; eassumption. }
  destruct (intern vt1 t) as [e0|vt2] eqn:It; simpl.
  { intros [= <-]. eapply intern_error; eassumption. }
  apply intern_keys in Is. destruct Is as (_ & _ & _ & [si Gs]).
  apply intern_keys in It. destruct It as (_ & [tail ->] & _ & [ti Gt]).
  unfold vertex_index. rewrite (dict_get_extend _ tail _ _ Gs), Gt. discriminate.
Qed.

Lemma index_edges_error (edges : list edge_tuple) (e : exn) :
  index_edges edges = inl e -> exists msg, e = TypeError msg.
Proof.
  unfold index_edges. generalize (@nil (json * nat), @nil (nat * nat), @nil pyfloat).
  induction edges as [|edge edges IH]; simpl; intros st; [discriminate|].
  destruct (index_step st edge) as [e0|st1] eqn:S1; simpl.
  - intros [= <-]. eapply index_step_error; eassumption.
  - apply IH.
Qed.

(** ** Reading the vertex table *)

Lemma combine_keys_values {K V : Type} (d : list (K * V)) :
  combine (dict_keys d) (dict_values d) = d.
Proof. induction d as [|[k v] d IH]; simpl; congruence. Qed.

Lemma dict_get_position (vt : vertex_table) (a j : nat) (v : json) :
  dict_values vt = seq a (List.length vt) ->
  dict_get key_eqb vt v = Some j ->
  exists i k, j = a + i /\ nth_error (dict_keys vt) i = Some k /\
              key_eqb k v = true.
Proof.
  revert a. induction vt as [|[k0 n0] vt IH]; simpl; intros a; [discriminate|].
  intros [= -> Hv]. destruct (key_eqb k0 v) eqn:E.
  - intros [= <-]. exists 0, k0. rewrite Nat.add_0_r. auto.
  - intros G. destruct (IH _ Hv G) as (i & k & -> & Hn & Hk).
    exists (S i), k. repeat split; trivial. lia.
Qed.

Lemma dict_get_key (vt : vertex_table) (a i : nat) (k : json) :
  dict_values vt = seq a (List.length vt) ->
  distinct_ids (dict_keys vt) ->
  hashable k ->
  nth_error (dict_keys vt) i = Some k ->
  dict_get key_eqb vt k = Some (a + i).
Proof.
  revert a i. induction vt as [|[k0 n0] vt IH]; simpl; intros a i.
  - now destruct i.
  - intros [= -> Hv] [Hk0 Hd] Hk. destruct i as [|i]; simpl.
    + intros [= ->]. rewrite (key_eqb_refl _ Hk). now rewrite Nat.add_0_r.
    + intros Hn. rewrite (Hk0 k (nth_error_In _ _ Hn)).
      rewrite (IH (S a) i Hv Hd Hk Hn). f_equal. lia.
Qed.

Lemma dict_get_seen (vt : vertex_table) (v : json) :
  seen_in (dict_keys vt) v = true -> exists i, dict_get key_eqb vt v = Some i.
Proof.
  unfold seen_in. rewrite <- dict_mem_keys. unfold dict_mem.
  destruct (dict_get key_eqb vt v); [eauto|discriminate].
Qed.

Lemma first_seen_covers (ids : list json) (v : json) :
  In v ids -> hashable v -> seen_in (first_seen ids) v = true.
Proof.
  intros Hin Hv.
  pose proof (first_seen_occurrences ids v) as O.
  rewrite (seen_in_self _ _ Hin Hv) in O. unfold occurrences in O.
  unfold seen_in. apply existsb_exists.
  destruct (filter (fun u => key_eqb u v) (first_seen ids)) as [|k l] eqn:F;
    [discriminate|].
  assert (Hk : In k (filter (fun u => key_eqb u v) (first_seen ids)))
    by (rewrite F; now left).
  apply filter_In in Hk. now exists k.
Qed.

(** ** Keys and spellings *)

Lemma key_eqb_str_iff (u : json) (s : string) :
  key_eqb u (JStr s) = true <-> u = JStr s.
Proof.
  unfold key_eqb. split.
  - destruct u as [| b | z | f | t | l | kvs]; simpl; try discriminate.
    + destruct f; discriminate.
    + intros H. apply String.eqb_eq in H. now subst.
  - intros ->. simpl. apply String.eqb_refl.
Qed.

Lemma strings_same_spelling (ids : list json) :
  Forall (fun v => exists s, v = JStr s) ids -> same_key_same_spelling ids.
Proof.
  intros H u v _ Hv E.
  destruct (proj1 (Forall_forall _ _) H v Hv) as [s ->].
  now apply key_eqb_str_iff.
Qed.

Lemma integers_same_spelling (ids : list json) :
  Forall (fun v => exists z, v = JInt z) ids -> same_key_same_spelling ids.
Proof.
  intros H u v Hu Hv E.
  destruct (proj1 (Forall_forall _ _) H u Hu) as [a ->].
  destruct (proj1 (Forall_forall _ _) H v Hv) as [b ->].
  rewrite key_eqb_int in E. apply Z.eqb_eq in E. now subst.
Qed.

Lemma filter_length_one {A : Type} (p : A -> bool) (l : list A) :
  List.length (filter p l) = 1 ->
  exists l1 x l2, l = l1 ++ x :: l2 /\ p x = true /\
    (forall y, In y l1 -> p y = false) /\ (forall y, In y l2 -> p y = false).
Proof.
  induction l as [|a l IH]; simpl; [discriminate|].
  destruct (p a) eqn:Pa; simpl.
  - intros [= H]. exists [], a, l. repeat split; trivial; [intros y []|].
    intros y Hy. destruct (p y) eqn:Py; trivial.
    assert (Hin : In y (filter p l)) by (apply filter_In; auto).
    apply length_zero_iff_nil in H. rewrite H in Hin. destruct Hin.
  - intros H. destruct (IH H) as (l1 & x & l2 & -> & Px & H1 & H2).
    exists (a :: l1), x, l2. repeat split; trivial.
    intros y [<-|Hy]; auto.
Qed.

Lemma occurs_once_of_occurrences (ids l : list json) (v : json) :
  same_key_same_spelling ids -> incl l ids -> In v ids -> hashable v ->
  occurrences v l = 1 -> occurs_once v l.
Proof.
  intros Hs Hl Hv Hh O. apply filter_length_one in O.
  destruct O as (l1 & x & l2 & -> & Px & H1 & H2).
  assert (x = v) as ->.
  { apply Hs; trivial. apply Hl, in_or_app. right. now left. }
  exists l1, l2. repeat split; trivial.
  - intros Hin. apply H1 in Hin. rewrite key_eqb_refl in Hin; congruence.
  - intros Hin. apply H2 in Hin. rewrite key_eqb_refl in Hin; congruence.
Qed.

(** ** The arguments of the library calls *)

Lemma indexed_in_range (vt : vertex_table) (e : edge_tuple) (p : nat * nat) :
  dict_values vt = seq 0 (List.length vt) ->
  indexed_in vt e p -> fst p < List.length vt /\ snd p < List.length vt.
Proof.
  intros V [H1 H2].
  assert (R : forall v j, dict_get key_eqb vt v = Some j -> j < List.length vt).
  { intros v j G. apply dict_get_In in G. destruct G as (k & Hin & _).
    assert (Hj : In j (dict_values vt)).
    { unfold dict_values. apply in_map_iff. now exists (k, j). }
    rewrite V in Hj. apply in_seq in Hj. lia. }
  split; eapply R; eassumption.
Qed.

(** The graph handed to igraph has every edge inside 0 .. n-1 and one
    weight per edge. *)
Lemma graph_arguments (edges : list edge_tuple) (vt : vertex_table)
    (et : list (nat * nat)) (ws : list pyfloat) :
  index_edges edges = inr (vt, et, ws) ->
  graph_arguments_fit (List.length vt) et ws.
Proof.
  intros I. apply index_edges_inv in I. destruct I as (_ & _ & V & F & ->).
  split.
  - clear -V F. induction F as [|e p l ps Hp _ IH]; constructor; trivial.
    eapply indexed_in_range; eassumption.
  - rewrite length_map. eapply Forall2_length; eassumption.
Qed.

(** * The specified properties *)

(** C5.  For every list of edges whose identifiers can be dictionary keys,
    the loop of lines 46-56 succeeds and pairs the distinct identifiers, in
    first-seen order, with the indices 0 .. n-1; every identifier of an edge
    has an index below n, two identifiers share an index only when they are
    the same key, and the reverse table of line 59 returns, for every index,
    the identifier that was entered at that index, which the forward table
    sends back to the same index. *)
Theorem vertex_numbering (edges : list edge_tuple) :
  Forall hashable (endpoints edges) ->
  exists vt et ws,
    index_edges edges = inr (vt, et, ws) /\ numbered_first_seen edges vt.
Proof.
  intros Hh. destruct (index_edges_total edges Hh) as (vt & et & ws & I).
  exists vt, et, ws. split; trivial.
  destruct (index_edges_inv _ _ _ _ I) as (_ & K & V & _ & _).
  assert (L : List.length vt = List.length (first_seen (endpoints edges))).
  { rewrite <- K. unfold dict_keys. now rewrite length_map. }
  unfold numbered_first_seen. cbv zeta. rewrite <- L, <- K.
  assert (D : distinct_ids (dict_keys vt)) by (rewrite K; apply first_seen_distinct).
  repeat split; trivial.
  - rewrite <- V at 1. symmetry. apply combine_keys_values.
  - intros v Hin.
    assert (Hv : hashable v) by (revert v Hin; now apply Forall_forall).
    destruct (dict_get_seen vt v) as [j G].
    { rewrite K. now apply first_seen_covers. }
    destruct (dict_get_position _ _ _ _ V G) as (i & k & -> & Hn & Hk).
    exists i, k. simpl. repeat split; trivial.
    + assert (Hlt : nth_error (dict_keys vt) i <> None) by congruence.
      apply nth_error_Some in Hlt. unfold dict_keys in Hlt.
      now rewrite length_map in Hlt.
    + now rewrite reverse_table_get.
  - intros v w j Gv Gw.
    destruct (dict_get_position _ _ _ _ V Gv) as (i & k & -> & Hn & Hk).
    destruct (dict_get_position _ _ _ _ V Gw) as (i' & k' & E & Hn' & Hk').
    simpl in E. subst i'. rewrite Hn in Hn'. injection Hn' as <-.
    rewrite key_eqb_sym in Hk. eapply key_eqb_trans; eassumption.
  - intros i Hi.
    destruct (nth_error (dict_keys vt) i) as [k|] eqn:Hn.
    + exists k. rewrite reverse_table_get by trivial.
      assert (Hin : In k (endpoints edges)).
      { apply first_seen_incl. rewrite <- K. eapply nth_error_In; eassumption. }
      repeat split; trivial.
      apply (dict_get_key vt 0 i k); trivial.
      revert k Hin Hn. intros k Hin _. revert k Hin. now apply Forall_forall.
    + apply nth_error_None in Hn. unfold dict_keys in Hn.
      rewrite length_map in Hn. lia.
Qed.

Section Specified.

Variable float_of_str : string -> res pyfloat.
Context {rng : Type}.
Variable find_partition :
  rng -> nat -> list (nat * nat) -> list pyfloat -> json -> json ->
  res (list nat).

(** What a run does once lines 98-110 have produced the edge tuples. *)
Lemma main_after_request (seed : rng) (d : json) (tuples : list edge_tuple)
    (resolution n_iterations : json) :
  read_request float_of_str d = inr (tuples, resolution, n_iterations) ->
  main float_of_str find_partition seed (Document d) =
    match detect_communities find_partition seed tuples resolution n_iterations with
    | (trace, inl e) =>
        mkProcess trace []
          [if is_exception e then ErrorJson (str_exn e) else Traceback e] 1
    | (trace, inr cs) =>
        mkProcess trace
          [mkResult cs
             (mkStats (List.length (first_seen (endpoints tuples)))
                      (List.length tuples) (List.length cs))]
          [] 0
    end.
Proof.
  intros R. unfold main. rewrite R, report_inv.
  now destruct (detect_communities find_partition seed tuples resolution
                  n_iterations) as [trace [e|cs]].
Qed.

Lemma main_bad_request (seed : rng) (d : json) (e : exn) :
  read_request float_of_str d = inl e ->
  main float_of_str find_partition seed (Document d) =
    mkProcess [] [] [Traceback e] 1.
Proof. intros R. unfold main. now rewrite R. Qed.

Lemma read_request_inv (d : json) (tuples : list edge_tuple)
    (resolution n_iterations : json) :
  read_request float_of_str d = inr (tuples, resolution, n_iterations) ->
  exists fields es,
    d = JObj fields /\
    py_iter (obj_get fields "edges" (JArr [])) = inr es /\
    Forall2 (fun edge t => convert_edge float_of_str edge = inr t) es tuples /\
    resolution = obj_get fields "resolution" (JFloat one) /\
    n_iterations = obj_get fields "n_iterations" (JInt (-1)).
Proof.
  destruct d; simpl; try discriminate. unfold convert_edges.
  destruct (py_iter (obj_get fields "edges" (JArr []))) as [e|es] eqn:I;
    simpl; [discriminate|].
  destruct (map_res (convert_edge float_of_str) es) as [e|ts] eqn:M;
    simpl; [discriminate|].
  unfold ok. intros [= <- <- <-]. exists fields, es.
  repeat split; trivial. now apply map_res_inr.
Qed.

(** C3.  When the [edges] entry of the request is the empty list, or is
    missing so that the default [[]] is taken, the run succeeds with
    exit status 0, calls no library, writes nothing to stderr and prints
    [communities = []] with all three counters at 0. *)
Theorem empty_edge_list_succeeds (seed : rng) (fields : list (string * json)) :
  obj_get fields "edges" (JArr []) = JArr [] ->
  main float_of_str find_partition seed (Document (JObj fields)) =
    mkProcess [] [mkResult [] (mkStats 0 0 0)] [] 0.
Proof.
  intros H. unfold main, read_request, convert_edges. rewrite H. reflexivity.
Qed.

(** C6.  A two-element edge [[source, target]] is converted to the tuple
    [(source, target, 1.0)], and so is a three-element edge whose weight
    is [null]. *)
Theorem implicit_weight_is_one :
  (forall source target,
     convert_edge float_of_str (pair_edge source target)
       = ok (source, target, one)) /\
  (forall source target,
     convert_edge float_of_str (triple_edge source target JNull)
       = ok (source, target, one)).
Proof. split; reflexivity. Qed.

(** C10.  A three-element edge whose weight is falsy (among them the
    numbers [0], [0.0] and [-0.0]) is converted to the tuple with weight
    [1.0], the same tuple that the edge with weight [1.0] gives. *)
Theorem falsy_weight_becomes_one (source target weight : json) :
  truthy weight = false ->
  convert_edge float_of_str (triple_edge source target weight)
    = ok (source, target, one) /\
  convert_edge float_of_str (triple_edge source target weight)
    = convert_edge float_of_str (triple_edge source target (JFloat one)).
Proof.
  intros H. unfold triple_edge.
  rewrite (convert_triple float_of_str (JArr [source; target; weight])
             source target weight eq_refl).
  unfold py_or. rewrite H. split; reflexivity.
Qed.

Lemma zero_is_falsy (sign : bool) :
  truthy (JInt 0) = false /\ truthy (JFloat (S754_zero sign)) = false.
Proof. split; reflexivity. Qed.


(** The ways a run can end. *)
Lemma run_cases (seed : rng) (input : stdin) :
  let p := main float_of_str find_partition seed input in
  (exists msg,
     input = Unparseable msg /\
     p = mkProcess [] [] [ErrorJson ("Invalid JSON input: " ++ msg)] 1) \/
  (exists e,
     input = LoadError e /\ p = mkProcess [] [] [Traceback e] 1) \/
  (exists d e,
     input = Document d /\ read_request float_of_str d = inl e /\
     p = mkProcess [] [] [Traceback e] 1) \/
  (exists d tuples resolution n_iterations trace e,
     input = Document d /\
     read_request float_of_str d = inr (tuples, resolution, n_iterations) /\
     detect_communities find_partition seed tuples resolution n_iterations
       = (trace, inl e) /\
     p = mkProcess trace []
           [if is_exception e then ErrorJson (str_exn e) else Traceback e] 1) \/
  (exists d tuples resolution n_iterations trace cs r,
     input = Document d /\
     read_request float_of_str d = inr (tuples, resolution, n_iterations) /\
     detect_communities find_partition seed tuples resolution n_iterations
       = (trace, inr cs) /\
     communities r = cs /\
     p = mkProcess trace [r] [] 0).
Proof.
  intros p. subst p. destruct input as [msg|e|d].
  - left. eauto.
  - right. left. eauto.
  - do 2 right.
    destruct (read_request float_of_str d) as [e|[[tuples resolution] n_iterations]] eqn:R.
    + left. exists d, e. repeat split; trivial. now apply main_bad_request.
    + right. rewrite (main_after_request _ _ _ _ _ R).
      destruct (detect_communities find_partition seed tuples resolution
                  n_iterations) as [trace [e|cs]] eqn:D.
      * left. exists d, tuples, resolution, n_iterations, trace, e. auto.
      * right. exists d, tuples, resolution, n_iterations, trace, cs.
        eexists. repeat split; trivial.
Qed.

Lemma printed_inv (seed : rng) (input : stdin) (r : result) :
  stdout (main float_of_str find_partition seed input) = [r] ->
  exists d tuples resolution n_iterations trace,
    input = Document d /\
    read_request float_of_str d = inr (tuples, resolution, n_iterations) /\
    detect_communities find_partition seed tuples resolution n_iterations
      = (trace, inr (communities r)) /\
    result_stats r =
      mkStats (List.length (first_seen (endpoints tuples)))
              (List.length tuples) (List.length (communities r)).
Proof.
  destruct input as [msg|e0|d]; [discriminate|discriminate|].
  destruct (read_request float_of_str d) as [e|[[ts rs] it]] eqn:R.
  - rewrite (main_bad_request seed d e R). discriminate.
  - rewrite (main_after_request seed d ts rs it R).
    destruct (detect_communities find_partition seed ts rs it)
      as [tr [e|cs]] eqn:D; simpl; [discriminate|].
    intros [= <-]. exists d, ts, rs, it, tr. simpl. repeat split; trivial.
Qed.



(** C8.  When a run prints a result, every community record in it has
    [level = 0] and lists only identifiers that occur as source or target
    of an input edge, in the spelling of the input; [vertex_count] is the
    number of distinct such identifiers, [edge_count] the number of edges
    of the request and [community_count] the number of records. *)
Theorem result_envelope (seed : rng) (input : stdin) (r : result) :
  stdout (main float_of_str find_partition seed input) = [r] ->
  exists fields es tuples,
    input = Document (JObj fields) /\
    py_iter (obj_get fields "edges" (JArr [])) = inr es /\
    Forall2 (fun edge t => convert_edge float_of_str edge = inr t) es tuples /\
    Forall (fun c => level c = 0%Z /\ incl (entity_ids c) (endpoints tuples))
           (communities r) /\
    vertex_count (result_stats r) = List.length (first_seen (endpoints tuples)) /\
    edge_count (result_stats r) = List.length es /\
    community_count (result_stats r) = List.length (communities r).
Proof.
  intros H. apply printed_inv in H.
  destruct H as (d & tuples & rs & it & tr & -> & R & D & S).
  destruct (read_request_inv _ _ _ _ R) as (fields & es & -> & I & F & _ & _).
  exists fields, es, tuples. rewrite S. simpl.
  repeat split; trivial; [|symmetry; eapply Forall2_length; eassumption].
  destruct tuples as [|t0 rest].
  - simpl in D. injection D as _ <-. constructor.
  - apply detect_inv in D; [|discriminate].
    destruct D as (vt & et & m & vs & _ & _ & _ & Fv & P & L).
    apply Forall_forall. intros c Hc. split.
    + revert c Hc. now apply Forall_forall.
    + intros x Hx. apply first_seen_incl.
      apply (read_positions_incl _ _ _ _ Fv).
      apply (Permutation_in _ P). apply in_flat_map. eauto.
Qed.

(** C2.  Let the library label every vertex of the graph it is given.
    When a run on a non-empty edge list prints a result, the identifiers
    printed in its communities are, up to their order, the distinct
    identifiers of the input edges; so every source or target of an
    input edge occurs once in exactly one community.  Identifiers are told
    apart as the script tells them apart, as dictionary keys; when equal
    keys are spelled the same in the input (all strings, say), each
    identifier is found at exactly one position of the output. *)
Theorem every_vertex_in_one_community (seed : rng) (d : json)
    (tuples : list edge_tuple) (resolution n_iterations : json) (r : result) :
  labels_every_vertex find_partition ->
  read_request float_of_str d = inr (tuples, resolution, n_iterations) ->
  tuples <> [] ->
  stdout (main float_of_str find_partition seed (Document d)) = [r] ->
  Permutation (printed_ids r) (first_seen (endpoints tuples)) /\
  (forall v, In v (endpoints tuples) -> occurrences v (printed_ids r) = 1) /\
  (same_key_same_spelling (endpoints tuples) ->
   forall v, In v (endpoints tuples) -> occurs_once v (printed_ids r)).
Proof.
  intros Hlib R Hne H. apply printed_inv in H.
  destruct H as (d' & ts & rs & it & tr & [= <-] & R' & D & _).
  rewrite R in R'. injection R' as <- <- <-.
  pose proof (detect_hashable _ _ _ _ _ _ _ D) as Hh.
  apply detect_inv in D; trivial.
  destruct D as (vt & et & m & vs & I & _ & Lm & Fv & P & _).
  apply Hlib in Lm. apply index_edges_inv in I.
  destruct I as (_ & K & _ & _ & _).
  assert (Lk : List.length m = List.length (first_seen (endpoints tuples))).
  { rewrite Lm, <- K. unfold dict_keys. now rewrite length_map. }
  rewrite Lk in Fv. apply (read_by_position []) in Fv. subst vs.
  assert (O : forall v, In v (endpoints tuples) ->
                        occurrences v (printed_ids r) = 1).
  { intros v Hin. unfold occurrences.
    rewrite (Permutation_length (filter_permutation _ _ _ P)).
    fold (occurrences v (first_seen (endpoints tuples))).
    rewrite first_seen_occurrences, seen_in_self; trivial.
    revert v Hin. now apply Forall_forall. }
  split; [exact P|]. split; [exact O|].
  intros Hs v Hin.
  apply (occurs_once_of_occurrences (endpoints tuples)); auto.
  - intros x Hx. apply first_seen_incl. now apply (Permutation_in _ P).
  - revert v Hin. now apply Forall_forall.
Qed.

End Specified.

(** * Runs on concrete requests *)

Lemma vertex_numbering_witness :
  Forall hashable (endpoints ab_bc_tuples) /\
  exists vt et ws,
    index_edges ab_bc_tuples = inr (vt, et, ws) /\
    numbered_first_seen ab_bc_tuples vt.
Proof.
  assert (H : Forall hashable (endpoints ab_bc_tuples))
    by (repeat constructor; discriminate).
  split; [exact H | exact (vertex_numbering ab_bc_tuples H)].
Defined.

Example ab_bc_table :
  index_edges ab_bc_tuples =
    inr ([(JStr "a", 0); (JStr "b", 1); (JStr "c", 2)], [(0, 1); (1, 2)], [one; one]).
Proof. reflexivity. Qed.

(** [true], [1] and [1.0] are one vertex, printed in its first spelling. *)
Example mixed_spellings_table :
  index_edges [(JBool true, JInt 2, one); (JInt 1, JFloat one, one)] =
    inr ([(JBool true, 0); (JInt 2, 1)], [(0, 1); (0, 0)], [one; one]).
Proof. reflexivity. Qed.

Lemma empty_edge_list_witness :
  obj_get [] "edges" (JArr []) = JArr [] /\
  main no_text_floats one_block tt (Document (JObj [])) =
    mkProcess [] [mkResult [] (mkStats 0 0 0)] [] 0.
Proof.
  split; [reflexivity|].
  apply (empty_edge_list_succeeds no_text_floats one_block tt []). reflexivity.
Defined.

Lemma falsy_weight_witness :
  truthy (JInt 0) = false /\
  convert_edge no_text_floats (triple_edge (JStr "a") (JStr "b") (JInt 0))
    = ok (JStr "a", JStr "b", one) /\
  convert_edge no_text_floats (triple_edge (JStr "a") (JStr "b") (JInt 0))
    = convert_edge no_text_floats (triple_edge (JStr "a") (JStr "b") (JFloat one)).
Proof.
  split; [reflexivity|].
  apply (falsy_weight_becomes_one no_text_floats (JStr "a") (JStr "b") (JInt 0)).
  reflexivity.
Defined.



(** Nor is a weight that is not finite. *)
Example infinite_weight_reaches_graph :
  non_finite_weight (S754_infinity false) = true /\
  main no_text_floats strict_block tt
    (request [triple_edge (JStr "a") (JStr "b") (JFloat (S754_infinity false))]) =
    mkProcess
      [IgraphGraph 2 [(0, 1)]; SetEdgeWeights [S754_infinity false];
       FindPartition [S754_infinity false] (JFloat one) (JInt (-1))]
      []
      [Traceback (BaseException "weights must be finite and not negative")]
      1.
Proof. split; reflexivity. Qed.

(** A weight that is not a number but that [float] accepts is converted. *)
Example boolean_weight_is_not_rejected :
  convert_edge no_text_floats (triple_edge (JStr "a") (JStr "b") (JBool true))
    = ok (JStr "a", JStr "b", one).
Proof. reflexivity. Qed.


(** The two handlers at work: text that is not JSON, an identifier that
    cannot be a dictionary key, and a failure of the library. *)
Example unparseable_is_reported :
  main no_text_floats one_block tt (Unparseable "Expecting value: line 1 column 1 (char 0)") =
    mkProcess [] []
      [ErrorJson "Invalid JSON input: Expecting value: line 1 column 1 (char 0)"] 1.
Proof. reflexivity. Qed.

Example unhashable_identifier_is_reported :
  main no_text_floats one_block tt (request [pair_edge (JArr []) (JInt 2)]) =
    mkProcess [] [] [ErrorJson "unhashable type: 'list'"] 1.
Proof. reflexivity. Qed.

Example library_failure_is_reported :
  main no_text_floats broken tt (request ab_bc) =
    mkProcess
      [IgraphGraph 3 [(0, 1); (1, 2)]; SetEdgeWeights [one; one];
       FindPartition [one; one] (JFloat one) (JInt (-1))]
      [] [ErrorJson "partition failed"] 1.
Proof. reflexivity. Qed.

(** A request that is not an object is not reported through them either. *)
Example list_request_is_uncaught :
  main no_text_floats one_block tt (Document (JArr [])) =
    mkProcess [] []
      [Traceback (AttributeError "'list' object has no attribute 'get'")] 1.
Proof. reflexivity. Qed.

(** C7.  The request [{"edges": [[1]]}] is answered neither with a result
    nor with the error object: line 109 raises [ValueError] outside both
    [try] blocks, so the run ends with a traceback and exit status 1. *)
Lemma short_edge_is_uncaught :
  main no_text_floats one_block tt short_edge_request =
    mkProcess [] []
      [Traceback (ValueError "not enough values to unpack (expected 3, got 1)")]
      1.
Proof. reflexivity. Qed.

Lemma result_envelope_witness :
  let r := mkResult [mkCommunity 0 [JStr "a"; JStr "b"; JStr "c"]] (mkStats 3 2 1) in
  stdout (main no_text_floats one_block tt (request ab_bc)) = [r] /\
  exists fields es tuples,
    request ab_bc = Document (JObj fields) /\
    py_iter (obj_get fields "edges" (JArr [])) = inr es /\
    Forall2 (fun edge t => convert_edge no_text_floats edge = inr t) es tuples /\
    Forall (fun c => level c = 0%Z /\ incl (entity_ids c) (endpoints tuples))
           (communities r) /\
    vertex_count (result_stats r) = List.length (first_seen (endpoints tuples)) /\
    edge_count (result_stats r) = List.length es /\
    community_count (result_stats r) = List.length (communities r).
Proof.
  intros r. split; [reflexivity|].
  apply (result_envelope no_text_floats one_block tt (request ab_bc) r).
  reflexivity.
Defined.

Lemma one_block_labels_every_vertex : labels_every_vertex one_block.
Proof.
  intros seed n edges weights resolution n_iterations membership.
  unfold one_block, ok. intros [= <-]. apply repeat_length.
Qed.

Lemma every_vertex_witness :
  let r := mkResult [mkCommunity 0 [JStr "a"; JStr "b"; JStr "c"]] (mkStats 3 2 1) in
  labels_every_vertex one_block /\
  read_request no_text_floats (JObj [("edges", JArr ab_bc)])
    = inr (ab_bc_tuples, JFloat one, JInt (-1)) /\
  ab_bc_tuples <> [] /\
  stdout (main no_text_floats one_block tt (request ab_bc)) = [r] /\
  Permutation (printed_ids r) (first_seen (endpoints ab_bc_tuples)) /\
  (forall v, In v (endpoints ab_bc_tuples) -> occurrences v (printed_ids r) = 1) /\
  (same_key_same_spelling (endpoints ab_bc_tuples) ->
   forall v, In v (endpoints ab_bc_tuples) -> occurs_once v (printed_ids r)).
Proof.
  intros r.
  split; [exact one_block_labels_every_vertex|].
  split; [reflexivity|]. split; [discriminate|]. split; [reflexivity|].
  apply (every_vertex_in_one_community no_text_floats one_block tt
           (JObj [("edges", JArr ab_bc)]) ab_bc_tuples (JFloat one) (JInt (-1)) r);
    [exact one_block_labels_every_vertex | reflexivity | discriminate | reflexivity].
Defined.

(** Without the promise of the library a vertex can go missing. *)
Example short_membership_drops_a_vertex :
  main no_text_floats (fixed_membership [0; 0]) tt (request ab_bc) =
    mkProcess
      [IgraphGraph 3 [(0, 1); (1, 2)]; SetEdgeWeights [one; one];
       FindPartition [one; one] (JFloat one) (JInt (-1))]
      [mkResult [mkCommunity 0 [JStr "a"; JStr "b"]] (mkStats 3 2 1)]
      [] 0.
Proof. reflexivity. Qed.

(** The script hands no seed to the library (lines 66-72): with a library
    whose answer depends on its random state, one and the same request is
    answered differently. *)
Example random_state_changes_partition :
  stdout (main no_text_floats by_seed 1 (request ab_bc)) =
    [mkResult [mkCommunity 0 [JStr "a"; JStr "b"; JStr "c"]] (mkStats 3 2 1)] /\
  stdout (main no_text_floats by_seed 2 (request ab_bc)) =
    [mkResult [mkCommunity 0 [JStr "a"; JStr "c"]; mkCommunity 0 [JStr "b"]]
              (mkStats 3 2 2)].
Proof. split; reflexivity. Qed.

(** ** The two triangles *)

(** The request of the scenario reaches the library as the graph on six
    vertices with the six edges in input order, all of weight 1.0. *)
Example two_triangles_calls (rng : Type)
    (find_partition : rng -> nat -> list (nat * nat) -> list pyfloat ->
                      json -> json -> res (list nat)) (seed : rng) :
  calls (main no_text_floats find_partition seed two_triangles_request) =
    [IgraphGraph 6 [(0, 1); (1, 2); (2, 0); (3, 4); (4, 5); (5, 3)];
     SetEdgeWeights (repeat one 6);
     FindPartition (repeat one 6) (JFloat one) (JInt (-1))].
Proof.
  unfold two_triangles_request.
  rewrite (main_after_request no_text_floats find_partition seed
             (JObj [("edges", JArr two_triangles); ("resolution", JFloat one)])
             (map (fun ab => (JInt (fst ab), JInt (snd ab), one))
                  [(0, 1); (1, 2); (2, 0); (3, 4); (4, 5); (5, 3)]%Z)
             (JFloat one) (JInt (-1)) eq_refl).
  match goal with
  | |- context [detect_communities ?la ?s ?es ?r ?i] =>
      pose proof (detect_trace la s es r i) as T;
      destruct (detect_communities la s es r i) as [trace [e|cs]]
  end; simpl in T; subst trace; reflexivity.
Qed.

(** What is printed then is the grouping of the library's answer: the
    labels [0,0,0,1,1,1] give the two triangles, one label per vertex gives
    six singletons. *)
Example two_triangles_grouping :
  stdout (main no_text_floats (fixed_membership [0; 0; 0; 1; 1; 1]) tt
            two_triangles_request) =
    [mkResult [mkCommunity 0 [JInt 0; JInt 1; JInt 2];
               mkCommunity 0 [JInt 3; JInt 4; JInt 5]] (mkStats 6 6 2)] /\
  stdout (main no_text_floats (fixed_membership [0; 1; 2; 3; 4; 5]) tt
            two_triangles_request) =
    [mkResult (map (fun z => mkCommunity 0 [JInt z]) [0; 1; 2; 3; 4; 5]%Z)
              (mkStats 6 6 6)].
Proof. split; reflexivity. Qed.

(** * Further properties of the script *)

(** ** The grouping loop, exactly *)

Lemma fold_res_app {A B : Type} (f : A -> B -> res A) (l1 l2 : list B) (a : A) :
  fold_res f (l1 ++ l2) a = (b <- fold_res f l1 a ;; fold_res f l2 b).
Proof.
  revert a. induction l1 as [|x l1 IH]; simpl; intros a; trivial.
  destruct (f a x) as [e|a']; simpl; trivial.
Qed.

Lemma combine_snoc {A B : Type} (l : list A) (l' : list B) (x : A) (y : B) :
  List.length l = List.length l' ->
  combine (l ++ [x]) (l' ++ [y]) = combine l l' ++ [(x, y)].
Proof.
  revert l'. induction l as [|a l IH]; intros [|b l']; simpl; try discriminate; trivial.
  intros [= H]. now rewrite IH.
Qed.

Lemma enumerate_snoc {A : Type} (l : list A) (x : A) :
  enumerate (l ++ [x]) = enumerate l ++ [(List.length l, x)].
Proof.
  unfold enumerate. rewrite length_app. simpl. rewrite Nat.add_1_r, seq_S. simpl.
  apply combine_snoc. now rewrite length_seq.
Qed.

Lemma first_labels_In (c : nat) (m : list nat) : In c (first_labels m) <-> In c m.
Proof.
  induction m as [|a m IH]; simpl; [tauto|].
  rewrite filter_In, IH, negb_true_iff, Nat.eqb_neq.
  destruct (Nat.eq_dec a c); intuition.
Qed.

Lemma first_labels_NoDup (m : list nat) : NoDup (first_labels m).
Proof.
  induction m as [|a m IH]; simpl; constructor.
  - rewrite filter_In, negb_true_iff, Nat.eqb_neq. tauto.
  - now apply NoDup_filter.
Qed.

Lemma first_labels_length (m : list nat) :
  List.length (first_labels m) <= List.length m.
Proof.
  induction m as [|a m IH]; simpl; trivial.
  pose proof (filter_length_le (fun c' => negb (Nat.eqb a c')) (first_labels m)).
  lia.
Qed.

Lemma first_labels_snoc (p : list nat) (c : nat) :
  first_labels (p ++ [c]) =
    if existsb (Nat.eqb c) p then first_labels p else first_labels p ++ [c].
Proof.
  induction p as [|a p IH]; simpl; trivial.
  rewrite IH. destruct (Nat.eqb_spec c a) as [->|N]; simpl.
  - destruct (existsb (Nat.eqb a) p); trivial.
    rewrite filter_app. simpl. rewrite Nat.eqb_refl. simpl. now rewrite app_nil_r.
  - destruct (existsb (Nat.eqb c) p); trivial.
    rewrite filter_app. simpl.
    destruct (Nat.eqb_spec a c); [congruence|]. reflexivity.
Qed.

Lemma members_of_snoc (c' c : nat) (p : list nat) (vs : list json) (v : json) :
  List.length p = List.length vs ->
  members_of c' (p ++ [c]) (vs ++ [v]) =
    members_of c' p vs ++ (if Nat.eqb c c' then [v] else []).
Proof.
  intros L. unfold members_of. rewrite (combine_snoc _ _ _ _ L), filter_app, map_app.
  simpl. now destruct (Nat.eqb c c').
Qed.

Lemma members_of_absent (c : nat) (m : list nat) (vs : list json) :
  ~ In c m -> members_of c m vs = [].
Proof.
  unfold members_of. revert vs. induction m as [|a m IH]; intros [|v vs] H; trivial.
  simpl in *. destruct (Nat.eqb_spec a c); [tauto|]. apply IH. tauto.
Qed.

Lemma members_of_present (c : nat) (m : list nat) (vs : list json) :
  List.length m = List.length vs -> In c m -> members_of c m vs <> [].
Proof.
  unfold members_of. revert vs. induction m as [|a m IH]; intros [|v vs]; simpl;
    try discriminate; [tauto|].
  intros [= L] [->|H].
  - rewrite Nat.eqb_refl. discriminate.
  - destruct (Nat.eqb a c); [discriminate|]. now apply IH.
Qed.

Lemma existsb_eqb_In (c : nat) (p : list nat) :
  existsb (Nat.eqb c) p = true <-> In c p.
Proof.
  rewrite existsb_exists. split.
  - intros (x & Hx & E). apply Nat.eqb_eq in E. now subst.
  - intros H. exists c. split; trivial. apply Nat.eqb_refl.
Qed.

Lemma dict_get_labelled {V : Type} (f : nat -> V) (ks : list nat) (k : nat) :
  dict_get Nat.eqb (map (fun c => (c, f c)) ks) k =
    if existsb (Nat.eqb k) ks then Some (f k) else None.
Proof.
  induction ks as [|a ks IH]; simpl; trivial.
  rewrite (Nat.eqb_sym k a). destruct (Nat.eqb_spec a k) as [->|N]; trivial.
Qed.

Lemma dict_set_labelled {V : Type} (f g : nat -> V) (ks : list nat) (k : nat) :
  NoDup ks -> In k ks ->
  (forall c, c <> k -> g c = f c) ->
  dict_set Nat.eqb (map (fun c => (c, f c)) ks) k (g k) = map (fun c => (c, g c)) ks.
Proof.
  intros N Hin Hg. induction ks as [|a ks IH]; simpl; [destruct Hin|].
  inversion N as [|? ? Ha Nks]; subst.
  destruct (Nat.eqb_spec a k) as [->|Ne].
  - f_equal. apply map_ext_in. intros c Hc. rewrite (Hg c); trivial.
    intros ->. contradiction.
  - rewrite (Hg a Ne). f_equal. destruct Hin as [->|Hin]; [congruence|].
    now apply IH.
Qed.

(** One pass of the loop body takes the dictionary of a prefix to the
    dictionary of the prefix extended by one vertex. *)
Lemma group_step_grouped (itv : list (nat * json)) (p : list nat)
    (vs : list json) (c : nat) (v : json) :
  List.length p = List.length vs ->
  dict_get Nat.eqb itv (List.length p) = Some v ->
  group_step itv (grouped p vs) (List.length p, c)
    = inr (grouped (p ++ [c]) (vs ++ [v])).
Proof.
  intros L G. unfold group_step, dict_mem, grouped.
  rewrite first_labels_snoc.
  pose proof (dict_get_labelled (fun c' => members_of c' p vs) (first_labels p) c)
    as Gc.
  destruct (existsb (Nat.eqb c) p) eqn:E.
  - assert (Ef : existsb (Nat.eqb c) (first_labels p) = true)
      by (apply existsb_eqb_In, first_labels_In, existsb_eqb_In; exact E).
    rewrite Ef in Gc. rewrite Gc. cbv iota. rewrite Gc, G. unfold ok. f_equal.
    rewrite <- (dict_set_labelled (fun c' => members_of c' p vs)
                  (fun c' => members_of c' (p ++ [c]) (vs ++ [v]))
                  (first_labels p) c).
    + rewrite (members_of_snoc _ _ _ _ _ L), Nat.eqb_refl. reflexivity.
    + apply first_labels_NoDup.
    + apply first_labels_In. now apply existsb_eqb_In.
    + intros c' N. rewrite (members_of_snoc _ _ _ _ _ L).
      destruct (Nat.eqb_spec c c'); [congruence|]. now rewrite app_nil_r.
  - assert (Hc : ~ In c p).
    { intros H. apply existsb_eqb_In in H. congruence. }
    assert (Ef : existsb (Nat.eqb c) (first_labels p) = false).
    { destruct (existsb (Nat.eqb c) (first_labels p)) eqn:Ef; trivial.
      apply (proj1 (existsb_eqb_In _ _)) in Ef.
      apply (proj1 (first_labels_In _ _)) in Ef. contradiction. }
    rewrite Ef in Gc. rewrite Gc. cbv iota.
    rewrite (dict_set_absent _ _ _ _ Gc), dict_get_app, Gc. simpl.
    rewrite Nat.eqb_refl, G. unfold ok. f_equal.
    rewrite map_app. simpl.
    rewrite (members_of_snoc _ _ _ _ _ L), Nat.eqb_refl, (members_of_absent _ _ _ Hc).
    simpl.
    assert (S1 : forall (d : list (nat * list json)),
               dict_get Nat.eqb d c = None ->
               dict_set Nat.eqb (d ++ [(c, [])]) c [v] = d ++ [(c, [v])]).
    { induction d as [|[k l] d IHd]; simpl.
      - now rewrite Nat.eqb_refl.
      - destruct (Nat.eqb k c); [discriminate|]. intros H. now rewrite IHd. }
    rewrite (S1 _ Gc). f_equal.
    apply map_ext_in. intros c' Hc'. f_equal.
    rewrite (members_of_snoc _ _ _ _ _ L).
    destruct (Nat.eqb_spec c c') as [->|N]; [|now rewrite app_nil_r].
    apply (proj1 (first_labels_In _ _)) in Hc'. contradiction.
Qed.

Lemma group_step_missing (itv : list (nat * json)) (by_id : list (nat * list json))
    (i c : nat) :
  dict_get Nat.eqb itv i = None ->
  group_step itv by_id (i, c) = inl (KeyError (str_of_nat i)).
Proof.
  intros G. unfold group_step, dict_mem.
  destruct (dict_get Nat.eqb by_id c) as [l|] eqn:E.
  - now rewrite E, G.
  - rewrite (dict_set_absent _ _ _ _ E), dict_get_app, E. simpl.
    now rewrite Nat.eqb_refl, G.
Qed.

Lemma positions_read {A : Type} (P : nat -> A -> Prop) (a n : nat) (vs : list A) :
  Forall2 P (seq a n) vs -> forall j, a <= j < a + n -> exists v, P j v.
Proof.
  revert a vs. induction n as [|n IH]; simpl; intros a vs H j Hj; [lia|].
  inversion H as [|i v idxs vs' Hi Hrest]; subst.
  destruct (Nat.eq_dec j a) as [->|N]; [eauto|].
  apply (IH (S a) vs' Hrest). lia.
Qed.

(** The loop either reads every index of the membership list in the
    reverse table and ends with [grouped], or stops with a [KeyError] at the
    first index the table does not have. *)
Lemma group_vertices_spec (itv : list (nat * json)) (m : list nat) :
  (exists vs,
     Forall2 (fun i v => dict_get Nat.eqb itv i = Some v)
             (seq 0 (List.length m)) vs /\
     group_vertices itv m = inr (grouped m vs)) \/
  (exists i,
     i < List.length m /\ dict_get Nat.eqb itv i = None /\
     (forall j, j < i -> dict_get Nat.eqb itv j <> None) /\
     group_vertices itv m = inl (KeyError (str_of_nat i))).
Proof.
  induction m as [|c p IH] using rev_ind.
  - left. exists []. split; [constructor|reflexivity].
  - unfold group_vertices. rewrite enumerate_snoc, fold_res_app.
    fold (group_vertices itv p). rewrite length_app. simpl List.length.
    rewrite Nat.add_1_r.
    destruct IH as [(vs & F & E) | (i & Hi & Gi & Hj & E)]; rewrite E;
      cbv beta iota delta [bind fold_res].
    + assert (L : List.length p = List.length vs).
      { apply Forall2_length in F. now rewrite length_seq in F. }
      destruct (dict_get Nat.eqb itv (List.length p)) as [v|] eqn:G.
      * left. exists (vs ++ [v]). split.
        -- rewrite seq_S. apply Forall2_app; trivial. simpl. now repeat constructor.
        -- now rewrite (group_step_grouped _ _ _ _ _ L G).
      * right. exists (List.length p). repeat split; trivial; [lia| |].
        -- intros j Hlt.
           destruct (positions_read _ _ _ _ F j) as [v Hv]; [lia|]. congruence.
        -- now rewrite (group_step_missing _ _ _ _ G).
    + right. exists i. repeat split; trivial. lia.
Qed.

(** Reading positions 0 .. k-1 of a list gives its first [k] entries. *)
Lemma read_prefix {A : Type} (pre l vs : list A) (k : nat) :
  Forall2 (fun i v => nth_error (pre ++ l) i = Some v)
          (seq (List.length pre) k) vs ->
  k <= List.length l /\ vs = firstn k l.
Proof.
  revert pre l vs. induction k as [|k IH]; simpl; intros pre l vs H.
  - inversion H. split; [lia|reflexivity].
  - inversion H as [|i v idxs vs' Hx Hrest]; subst.
    rewrite nth_error_app2 in Hx by lia. rewrite Nat.sub_diag in Hx.
    destruct l as [|x l]; simpl in Hx; [discriminate|]. injection Hx as ->.
    destruct (IH (pre ++ [v]) l vs') as [Hk ->].
    { rewrite length_app, Nat.add_1_r, <- app_assoc. exact Hrest. }
    simpl. split; [lia|reflexivity].
Qed.

Lemma first_seen_length (ids : list json) :
  List.length (first_seen ids) <= List.length ids.
Proof.
  induction ids as [|v ids IH]; simpl; trivial.
  pose proof (filter_length_le (fun u => negb (key_eqb v u)) (first_seen ids)).
  lia.
Qed.

Lemma endpoints_length (edges : list edge_tuple) :
  List.length (endpoints edges) = 2 * List.length edges.
Proof. induction edges as [|e edges IH]; simpl; lia. Qed.

Lemma map_res_inl {A B : Type} (f : A -> res B) (l : list A) (e : exn) :
  map_res f l = inl e -> exists x, In x l /\ f x = inl e.
Proof.
  induction l as [|a l IH]; simpl; [discriminate|].
  destruct (f a) as [e0|b] eqn:Fa; simpl.
  - intros [= <-]. eauto.
  - destruct (map_res f l) as [e0|bs]; simpl; [|discriminate].
    intros [= <-]. destruct (IH eq_refl) as (x & Hin & Hx). eauto.
Qed.

Lemma map_res_first {A B : Type} (f : A -> res B) (good rest : list A)
    (bad : A) (e : exn) :
  Forall (fun x => exists y, f x = inr y) good ->
  f bad = inl e ->
  map_res f (good ++ bad :: rest) = inl e.
Proof.
  intros Hg Hb. induction Hg as [|a good [y Hy] _ IH]; simpl.
  - now rewrite Hb.
  - now rewrite Hy, IH.
Qed.

(** Identifiers that are the same key read the same entry of the table. *)
Lemma dict_get_same_key (vt : vertex_table) (s t : json) :
  key_eqb s t = true -> dict_get key_eqb vt s = dict_get key_eqb vt t.
Proof.
  intros E. induction vt as [|[k i] vt IH]; simpl; trivial.
  destruct (key_eqb k s) eqn:Ks.
  - now rewrite (key_eqb_trans _ _ _ Ks E).
  - destruct (key_eqb k t) eqn:Kt; trivial.
    rewrite key_eqb_sym in E. rewrite (key_eqb_trans _ _ _ Kt E) in Ks.
    discriminate.
Qed.

(** X12.  The loop of lines 50-56 keeps the edges one for one and in input
    order: every tuple gives one pair of indices read from the final table
    and its weight stays at the same position, so parallel edges and loops
    are neither merged nor dropped; a pair is a loop exactly when the two
    ends of its edge are the same identifier. *)
Theorem edges_kept_one_for_one (edges : list edge_tuple) (vt : vertex_table)
    (et : list (nat * nat)) (ws : list pyfloat) :
  index_edges edges = inr (vt, et, ws) ->
  List.length et = List.length edges /\
  ws = map snd edges /\
  Forall2 (fun e p =>
             indexed_in vt e p /\
             (fst p = snd p <-> key_eqb (fst (fst e)) (snd (fst e)) = true))
          edges et.
Proof.
  intros I. destruct (index_edges_inv _ _ _ _ I) as (_ & _ & V & F & ->).
  split; [symmetry; eapply Forall2_length; eassumption|]. split; trivial.
  clear I. induction F as [|e p l ps [H1 H2] _ IH]; constructor; trivial.
  split; [now split|]. split.
  - intros Eq. rewrite <- Eq in H2.
    destruct (dict_get_position _ _ _ _ V H1) as (i & k & E1 & Hn & Hk).
    destruct (dict_get_position _ _ _ _ V H2) as (i' & k' & E2 & Hn' & Hk').
    simpl in E1, E2. replace i' with i in Hn' by lia.
    rewrite Hn in Hn'. injection Hn' as <-.
    rewrite key_eqb_sym in Hk. eapply key_eqb_trans; eassumption.
  - intros E. rewrite (dict_get_same_key _ _ _ E) in H1. congruence.
Qed.

Section Further.

Variable float_of_str : string -> res pyfloat.
Context {rng : Type}.
Variable find_partition :
  rng -> nat -> list (nat * nat) -> list pyfloat -> json -> json ->
  res (list nat).

(** X3.  Lines 104-110 accept an edge exactly when its length is 2, or it
    has three items and the third is falsy or is accepted by [float]. *)
Theorem accepted_edges (edge : json) :
  (exists t, convert_edge float_of_str edge = inr t) <->
  py_len edge = inr 2 \/
  exists source target weight,
    py_iter edge = inr [source; target; weight] /\
    (truthy weight = false \/ exists f, py_float float_of_str weight = inr f).
Proof.
  split.
  - intros [t Ht].
    destruct (py_len edge) as [e|n] eqn:L.
    { unfold convert_edge in Ht. rewrite L in Ht. discriminate. }
    destruct (Nat.eq_dec n 2) as [->|N2]; [now left|]. right.
    destruct (py_len_iter _ _ L) as (items & I & Len).
    unfold convert_edge in Ht. rewrite L, I in Ht. simpl in Ht.
    destruct (Nat.eqb_spec n 2); [contradiction|].
    destruct items as [|a [|b [|c [|x items]]]]; try discriminate.
    exists a, b, c. split; trivial. unfold py_or in Ht.
    destruct (truthy c); [right|now left].
    destruct (py_float float_of_str c) as [e|f]; [discriminate|eauto].
  - intros [L | (s & t & w & I & Hw)].
    + destruct (py_len_iter _ _ L) as (items & I & Len).
      destruct items as [|a [|b [|c items]]]; try discriminate.
      exists (a, b, one). now apply convert_pair.
    + rewrite (convert_triple _ _ _ _ _ I). unfold py_or.
      destruct Hw as [-> | [f Hf]]; [simpl; eauto|].
      destruct (truthy w); [rewrite Hf|]; simpl; eauto.
Qed.

(** X4.  Whatever has length 2 is taken as an edge of weight 1.0 between
    its two items: a list of two elements, but also a string of two
    characters or an object with two keys. *)
Theorem two_items_make_an_edge (edge : json) :
  py_len edge = inr 2 ->
  exists source target,
    py_iter edge = inr [source; target] /\
    convert_edge float_of_str edge = inr (source, target, one).
Proof.
  intros L. destruct (py_len_iter _ _ L) as (items & I & Len).
  destruct items as [|a [|b [|c items]]]; try discriminate.
  exists a, b. split; trivial. now apply convert_pair.
Qed.

Lemma read_request_fails (d : json) (e : exn) :
  read_request float_of_str d = inl e -> unreadable float_of_str d.
Proof.
  destruct d; simpl;
    try (intros _; apply unreadable_not_object; intros fields; discriminate).
  unfold convert_edges.
  destruct (py_iter (obj_get fields "edges" (JArr []))) as [e0|es] eqn:I; simpl.
  - intros _. eapply unreadable_edges; eassumption.
  - destruct (map_res (convert_edge float_of_str) es) as [e0|ts] eqn:M; simpl;
      [|discriminate].
    intros _. apply map_res_inl in M. destruct M as (edge & Hin & He).
    eapply unreadable_edge; try eassumption.
    eapply convert_accepted; eassumption.
Qed.

Lemma unreadable_fails (d : json) :
  unreadable float_of_str d -> exists e, read_request float_of_str d = inl e.
Proof.
  intros [d' H | fields e I | fields es edge I Hin Hr].
  - destruct d'; simpl; eauto. now destruct (H fields).
  - simpl. unfold convert_edges. rewrite I. simpl. eauto.
  - simpl. unfold convert_edges. rewrite I. simpl.
    destruct (convert_rejected _ _ Hr) as [e0 He0].
    destruct (map_res_fails _ _ _ _ Hin He0) as [e ->]. simpl. eauto.
Qed.

(** X6.  When an edge cannot be converted, the exception of the run is the
    one raised by the first such edge; the edges after it are not looked
    at. *)
Theorem first_bad_edge_decides (seed : rng) (fields : list (string * json))
    (good rest : list json) (bad : json) (e : exn) :
  py_iter (obj_get fields "edges" (JArr [])) = inr (good ++ bad :: rest) ->
  Forall (fun edge => exists t, convert_edge float_of_str edge = inr t) good ->
  convert_edge float_of_str bad = inl e ->
  main float_of_str find_partition seed (Document (JObj fields)) =
    mkProcess [] [] [Traceback e] 1.
Proof.
  intros I Hg Hb. apply main_bad_request. simpl. unfold convert_edges.
  rewrite I. simpl. now rewrite (map_res_first _ _ _ _ _ Hg Hb).
Qed.

End Further.

(** ** What is done with the answer of the library *)

(** The first identifier that cannot be a dictionary key stops the
    numbering loop. *)
Lemma index_unhashable (edges : list edge_tuple) (st : index_state) :
  ~ Forall hashable (endpoints edges) ->
  exists before v after,
    endpoints edges = before ++ v :: after /\
    Forall hashable before /\ ~ hashable v /\
    fold_res index_step edges st
      = inl (TypeError ("unhashable type: '" ++ type_name v ++ "'")).
Proof.
  revert st. induction edges as [|[[s t] w] edges IH]; intros st H.
  - destruct H. constructor.
  - change (endpoints ((s, t, w) :: edges)) with (s :: t :: endpoints edges) in *.
    change (fold_res index_step ((s, t, w) :: edges) st)
      with (bind (index_step st (s, t, w)) (fold_res index_step edges)).
    destruct st as [[vt et] ws].
    destruct (key_of s) as [ks|] eqn:Ks.
    2:{ exists [], s, (t :: endpoints edges).
        split; [reflexivity|]. split; [constructor|].
        split; [unfold hashable; intros N; now apply N|].
        unfold index_step, intern, py_hash. now rewrite Ks. }
    assert (Hs : hashable s) by (unfold hashable; congruence).
    destruct (key_of t) as [kt|] eqn:Kt.
    2:{ exists [s], t, (endpoints edges).
        split; [reflexivity|]. split; [now repeat constructor|].
        split; [unfold hashable; intros N; now apply N|].
        unfold index_step, intern at 1, py_hash. rewrite Ks. simpl.
        destruct (dict_mem key_eqb vt s); simpl;
          unfold intern, py_hash; now rewrite Kt. }
    assert (Ht : hashable t) by (unfold hashable; congruence).
    destruct (index_step_total vt et ws (s, t, w) Hs Ht) as [st1 E1].
    rewrite E1. simpl.
    destruct (IH st1) as (before & v & after & Eq & Hb & Hv & E).
    { intros F. apply H. now repeat constructor. }
    exists (s :: t :: before), v, after. rewrite Eq.
    split; [reflexivity|]. split; [now repeat constructor|]. now split.
Qed.

Section Library.

Variable float_of_str : string -> res pyfloat.
Context {rng : Type}.
Variable find_partition :
  rng -> nat -> list (nat * nat) -> list pyfloat -> json -> json ->
  res (list nat).

(** [detect_communities] on a non-empty edge list whose numbering
    succeeds, in terms of the answer of the library. *)
Lemma detect_exact (seed : rng) (edges : list edge_tuple)
    (resolution n_iterations : json) (vt : vertex_table)
    (et : list (nat * nat)) (ws : list pyfloat) :
  edges <> [] ->
  index_edges edges = inr (vt, et, ws) ->
  let keys := first_seen (endpoints edges) in
  let trace := [IgraphGraph (List.length vt) et; SetEdgeWeights ws;
                FindPartition ws resolution n_iterations] in
  List.length vt = List.length keys /\
  detect_communities find_partition seed edges resolution n_iterations =
    (trace,
     match find_partition seed (List.length vt) et ws resolution n_iterations with
     | inl e => inl e
     | inr m =>
         if Nat.leb (List.length m) (List.length vt)
         then inr (map (fun c => mkCommunity 0
                                   (members_of c m (firstn (List.length m) keys)))
                       (first_labels m))
         else inl (KeyError (str_of_nat (List.length vt)))
     end).
Proof.
  intros Hne I keys trace.
  destruct (index_edges_inv _ _ _ _ I) as (_ & K & V & _ & _).
  assert (Lk : List.length vt = List.length keys).
  { subst keys. rewrite <- K. unfold dict_keys. now rewrite length_map. }
  split; trivial.
  unfold detect_communities. destruct edges as [|e0 rest]; [congruence|].
  rewrite I. fold trace. f_equal.
  destruct (find_partition seed (List.length vt) et ws resolution n_iterations)
    as [e|m]; trivial.
  unfold bind.
  destruct (group_vertices_spec (reverse_table vt) m)
    as [(vs & F & E) | (i & Hi & Gi & Hj & E)]; rewrite E.
  - assert (F' : Forall2 (fun i v => nth_error ([] ++ keys) i = Some v)
                         (seq (List.length (@nil json)) (List.length m)) vs).
    { simpl. subst keys. rewrite <- K. clear -F V.
      induction F as [|i v idxs vs' Hi _ IH]; constructor; trivial.
      now rewrite <- reverse_table_get. }
    apply read_prefix in F'. destruct F' as [Hle ->].
    destruct (Nat.leb_spec (List.length m) (List.length vt)); [|lia].
    unfold ok, grouped, dict_values. now rewrite !map_map.
  - rewrite (reverse_table_get _ _ V) in Gi.
    apply nth_error_None in Gi. unfold dict_keys in Gi. rewrite length_map in Gi.
    assert (i = List.length vt) as ->.
    { destruct (Nat.eq_dec i (List.length vt)) as [|N]; trivial.
      exfalso. apply (Hj (List.length vt)); [lia|].
      rewrite (reverse_table_get _ _ V). apply nth_error_None.
      unfold dict_keys. now rewrite length_map. }
    destruct (Nat.leb_spec (List.length m) (List.length vt)); [lia|]. reflexivity.
Qed.

(** A printed result of a non-empty edge list, in terms of the table and
    of the answer of the library. *)
Lemma printed_exact (seed : rng) (d : json) (tuples : list edge_tuple)
    (resolution n_iterations : json) (r : result) :
  read_request float_of_str d = inr (tuples, resolution, n_iterations) ->
  tuples <> [] ->
  stdout (main float_of_str find_partition seed (Document d)) = [r] ->
  exists vt et m,
    index_edges tuples = inr (vt, et, map snd tuples) /\
    List.length vt = List.length (first_seen (endpoints tuples)) /\
    find_partition seed (List.length vt) et (map snd tuples)
      resolution n_iterations = inr m /\
    List.length m <= List.length vt /\
    communities r =
      map (fun c => mkCommunity 0
                      (members_of c m (firstn (List.length m)
                                         (first_seen (endpoints tuples)))))
          (first_labels m).
Proof.
  intros R Hne H.
  rewrite (main_after_request _ _ _ _ _ _ _ R) in H.
  assert (Hh : Forall hashable (endpoints tuples)).
  { destruct (detect_communities find_partition seed tuples resolution
                n_iterations) as [trace [e|cs]] eqn:D; [discriminate|].
    eapply detect_hashable; eassumption. }
  destruct (index_edges_total _ Hh) as (vt & et & ws & I).
  destruct (detect_exact seed tuples resolution n_iterations vt et ws Hne I)
    as [Lk D].
  destruct (index_edges_inv _ _ _ _ I) as (_ & _ & _ & _ & ->).
  rewrite D in H.
  destruct (find_partition seed (List.length vt) et (map snd tuples)
              resolution n_iterations) as [e|m] eqn:L; [discriminate|].
  destruct (Nat.leb_spec (List.length m) (List.length vt)); [|discriminate].
  injection H as <-. exists vt, et, m. simpl. auto.
Qed.

(** X7.  What a run on a non-empty edge list prints is the answer of the
    library regrouped: one record per label, in the order in which the
    labels first appear in the membership list, each listing the
    identifiers of its vertices by increasing index, that is, in the order
    in which the identifiers were first seen in the input.  A membership
    list shorter than the vertex count prints the first vertices only. *)
Theorem printed_communities (seed : rng) (d : json) (tuples : list edge_tuple)
    (resolution n_iterations : json) (r : result) :
  read_request float_of_str d = inr (tuples, resolution, n_iterations) ->
  tuples <> [] ->
  stdout (main float_of_str find_partition seed (Document d)) = [r] ->
  let keys := first_seen (endpoints tuples) in
  exists et m,
    find_partition seed (List.length keys) et (map snd tuples)
      resolution n_iterations = inr m /\
    List.length m <= List.length keys /\
    communities r =
      map (fun c => mkCommunity 0 (members_of c m (firstn (List.length m) keys)))
          (first_labels m).
Proof.
  intros R Hne H keys.
  destruct (printed_exact seed d tuples resolution n_iterations r R Hne H)
    as (vt & et & m & _ & Lk & L & Hle & C).
  fold keys in Lk, C. rewrite Lk in L, Hle. exists et, m. auto.
Qed.

(** X9.  When the library answers with more labels than the graph has
    vertices, line 79 raises [KeyError] at the first index beyond the
    table: the run prints nothing and reports the text of that index. *)
Theorem long_membership_is_reported (seed : rng) (d : json)
    (tuples : list edge_tuple) (resolution n_iterations : json)
    (vt : vertex_table) (et : list (nat * nat)) (ws : list pyfloat)
    (m : list nat) :
  read_request float_of_str d = inr (tuples, resolution, n_iterations) ->
  tuples <> [] ->
  index_edges tuples = inr (vt, et, ws) ->
  find_partition seed (List.length vt) et ws resolution n_iterations = inr m ->
  List.length vt < List.length m ->
  main float_of_str find_partition seed (Document d) =
    mkProcess
      [IgraphGraph (List.length vt) et; SetEdgeWeights ws;
       FindPartition ws resolution n_iterations]
      [] [ErrorJson (str_of_nat (List.length vt))] 1.
Proof.
  intros R Hne I L Hlt.
  rewrite (main_after_request _ _ _ _ _ _ _ R).
  destruct (detect_exact seed tuples resolution n_iterations vt et ws Hne I)
    as [_ D].
  rewrite D, L.
  destruct (Nat.leb_spec (List.length m) (List.length vt)); [lia|]. reflexivity.
Qed.

(** X2.  When some source or target is a list or an object, the numbering
    loop raises [TypeError] at the first such identifier, in the order
    source, target, edge by edge: the run calls no library, prints nothing
    and reports "unhashable type" with the type of that identifier. *)
Theorem unhashable_identifier_stops_run (seed : rng) (d : json)
    (tuples : list edge_tuple) (resolution n_iterations : json) :
  read_request float_of_str d = inr (tuples, resolution, n_iterations) ->
  ~ Forall hashable (endpoints tuples) ->
  exists before v after,
    endpoints tuples = before ++ v :: after /\
    Forall hashable before /\ ~ hashable v /\
    main float_of_str find_partition seed (Document d) =
      mkProcess [] []
        [ErrorJson ("unhashable type: '" ++ type_name v ++ "'")] 1.
Proof.
  intros R H.
  destruct (index_unhashable tuples ([], [], []) H)
    as (before & v & after & Eq & Hb & Hv & E).
  exists before, v, after. repeat split; trivial.
  rewrite (main_after_request _ _ _ _ _ _ _ R).
  unfold detect_communities. destruct tuples as [|t0 rest].
  - destruct before; discriminate.
  - unfold index_edges. now rewrite E.
Qed.

(** X1.  A request with at least one edge and only hashable identifiers
    makes exactly three library calls, in this order: the graph on as many
    vertices as there are distinct identifiers, with one pair of indices
    below that number per edge; the weights as converted, one per edge in
    input order; and the partition request with the same weights and with
    [resolution] and [n_iterations] as the request gives them, or 1.0 and
    -1 when it does not.  The script checks none of these values. *)
Theorem library_calls (seed : rng) (fields : list (string * json))
    (tuples : list edge_tuple) :
  convert_edges float_of_str (obj_get fields "edges" (JArr [])) = inr tuples ->
  tuples <> [] ->
  Forall hashable (endpoints tuples) ->
  exists et,
    calls (main float_of_str find_partition seed (Document (JObj fields))) =
      [IgraphGraph (List.length (first_seen (endpoints tuples))) et;
       SetEdgeWeights (map snd tuples);
       FindPartition (map snd tuples)
         (obj_get fields "resolution" (JFloat one))
         (obj_get fields "n_iterations" (JInt (-1)))] /\
    List.length et = List.length tuples /\
    Forall (fun p => fst p < List.length (first_seen (endpoints tuples)) /\
                     snd p < List.length (first_seen (endpoints tuples))) et.
Proof.
  intros C Hne Hh.
  assert (R : read_request float_of_str (JObj fields) =
              inr (tuples, obj_get fields "resolution" (JFloat one),
                   obj_get fields "n_iterations" (JInt (-1)))).
  { simpl. now rewrite C. }
  rewrite (main_after_request _ _ _ _ _ _ _ R).
  destruct (index_edges_total _ Hh) as (vt & et & ws & I).
  destruct (detect_exact seed tuples (obj_get fields "resolution" (JFloat one))
              (obj_get fields "n_iterations" (JInt (-1))) vt et ws Hne I)
    as [Lk D].
  destruct (graph_arguments _ _ _ _ I) as [Hr Hl].
  destruct (index_edges_inv _ _ _ _ I) as (_ & _ & _ & F & ->).
  assert (Le : List.length et = List.length tuples)
    by (symmetry; eapply Forall2_length; eassumption).
  exists et. rewrite D, <- Lk. repeat split; trivial.
  destruct (find_partition seed (List.length vt) et (map snd tuples)
              (obj_get fields "resolution" (JFloat one))
              (obj_get fields "n_iterations" (JInt (-1)))) as [e|m]; trivial.
  destruct (Nat.leb (List.length m) (List.length vt)); trivial.
Qed.

(** X11.  The counters printed with a result agree with the graph that
    was handed to the library: either no call was made and all counters
    and the community list are empty, or the graph was built on
    [vertex_count] vertices with [edge_count] edges and as many weights. *)
Theorem counters_match_graph (seed : rng) (input : stdin) (r : result) :
  stdout (main float_of_str find_partition seed input) = [r] ->
  (calls (main float_of_str find_partition seed input) = [] /\
   communities r = [] /\ result_stats r = mkStats 0 0 0) \/
  (exists et ws resolution n_iterations,
     calls (main float_of_str find_partition seed input) =
       [IgraphGraph (vertex_count (result_stats r)) et; SetEdgeWeights ws;
        FindPartition ws resolution n_iterations] /\
     List.length et = edge_count (result_stats r) /\
     List.length ws = edge_count (result_stats r) /\
     0 < edge_count (result_stats r)).
Proof.
  intros H. pose proof H as P. apply printed_inv in P.
  destruct P as (d & tuples & rs & it & tr & -> & R & D & S).
  rewrite (main_after_request _ _ _ _ _ _ _ R) in *. rewrite D in *. simpl.
  destruct tuples as [|t0 rest].
  - left. simpl in D. injection D as <- E. rewrite <- E in S. auto.
  - right. pose proof (detect_hashable _ _ _ _ _ _ _ D) as Hh.
    destruct (index_edges_total _ Hh) as (vt & et & ws & I).
    destruct (detect_exact seed (t0 :: rest) rs it vt et ws
                ltac:(discriminate) I) as [Lk D'].
    rewrite D in D'. injection D' as -> _.
    destruct (index_edges_inv _ _ _ _ I) as (_ & _ & _ & F & Ew).
    assert (Le : List.length et = List.length (t0 :: rest))
      by (symmetry; eapply Forall2_length; eassumption).
    exists et, ws, rs, it. rewrite S, Lk. simpl.
    repeat split; trivial; [|lia].
    rewrite Ew. now rewrite length_map.
Qed.

(** X8.  In every printed result no community is empty, there are at most
    as many communities as vertices, and at most two vertices per edge. *)
Theorem counters_bounds (seed : rng) (input : stdin) (r : result) :
  stdout (main float_of_str find_partition seed input) = [r] ->
  Forall (fun c => entity_ids c <> []) (communities r) /\
  community_count (result_stats r) <= vertex_count (result_stats r) /\
  vertex_count (result_stats r) <= 2 * edge_count (result_stats r).
Proof.
  intros H. pose proof H as P. apply printed_inv in P.
  destruct P as (d & tuples & rs & it & tr & -> & R & D & S).
  rewrite S. simpl.
  assert (B : List.length (first_seen (endpoints tuples)) <= 2 * List.length tuples).
  { rewrite <- endpoints_length. apply first_seen_length. }
  destruct tuples as [|t0 rest].
  - simpl in D. injection D as _ E. rewrite <- E. simpl. repeat split; auto.
  - destruct (printed_exact seed d (t0 :: rest) rs it r R
                ltac:(discriminate) H) as (vt & et & m & _ & Lk & _ & Hle & ->).
    rewrite Lk in Hle. repeat split; trivial.
    + apply Forall_forall. intros c Hc. apply in_map_iff in Hc.
      destruct Hc as (l & <- & Hl). simpl.
      apply members_of_present.
      * now rewrite length_firstn, Nat.min_l.
      * now apply first_labels_In.
    + rewrite length_map. pose proof (first_labels_length m). lia.
Qed.

End Library.

(** ** The counters do not depend on the order of the edges *)

Lemma distinct_ids_remove (a b : list json) (k : json) :
  distinct_ids (a ++ k :: b) -> distinct_ids (a ++ b).
Proof.
  induction a as [|x a IH]; simpl; [tauto|].
  intros [Hx Hd]. split; auto.
  intros u Hu. apply Hx. apply in_app_iff in Hu. apply in_app_iff.
  simpl. tauto.
Qed.

(** A list of pairwise different identifiers is no longer than a list that
    has an equal identifier for each of its entries. *)
Lemma distinct_ids_length (K K' : list json) :
  distinct_ids K ->
  (forall k, In k K -> exists k', In k' K' /\ key_eqb k k' = true) ->
  List.length K <= List.length K'.
Proof.
  revert K'. induction K as [|k K IH]; simpl; intros K' D H; [lia|].
  destruct D as [Dk D].
  destruct (H k (or_introl eq_refl)) as (k' & Hin & E).
  apply in_split in Hin. destruct Hin as (a & b & ->).
  rewrite length_app. simpl. rewrite Nat.add_succ_r, <- length_app.
  apply le_n_S, IH; trivial.
  intros x Hx. destruct (H x (or_intror Hx)) as (y & Hy & Ey).
  exists y. split; trivial.
  apply in_app_iff in Hy. apply in_app_iff.
  destruct Hy as [Hy|[Eq|Hy]]; auto.
  subst y. specialize (Dk x Hx).
  rewrite (key_eqb_join _ _ _ E Ey) in Dk. discriminate.
Qed.

Lemma first_seen_length_incl (l l' : list json) :
  Forall hashable l -> incl l l' ->
  List.length (first_seen l) <= List.length (first_seen l').
Proof.
  intros Hh Hi. apply distinct_ids_length; [apply first_seen_distinct|].
  intros k Hk. apply first_seen_incl in Hk.
  assert (Hs : seen_in (first_seen l') k = true).
  { apply first_seen_covers; [now apply Hi|].
    revert k Hk. now apply Forall_forall. }
  unfold seen_in in Hs. apply existsb_exists in Hs.
  destruct Hs as (k' & Hin & E). exists k'. split; trivial.
  now rewrite key_eqb_sym.
Qed.

Lemma endpoints_permutation (t1 t2 : list edge_tuple) :
  Permutation t1 t2 -> Permutation (endpoints t1) (endpoints t2).
Proof.
  induction 1 as [|x l l' _ IH|x y l|l l' l'' _ IH1 _ IH2]; simpl.
  - constructor.
  - now repeat constructor.
  - apply (Permutation_app_swap_app [fst (fst y); snd (fst y)]
                                    [fst (fst x); snd (fst x)]).
  - etransitivity; eassumption.
Qed.

Section Order.

Variable float_of_str : string -> res pyfloat.
Context {rng1 rng2 : Type}.
Variable library1 :
  rng1 -> nat -> list (nat * nat) -> list pyfloat -> json -> json ->
  res (list nat).
Variable library2 :
  rng2 -> nat -> list (nat * nat) -> list pyfloat -> json -> json ->
  res (list nat).

(** X13.  When two requests list the same edges in different orders and
    both runs print a result, the two results report the same
    [vertex_count] and the same [edge_count], whatever the library
    answered in either run. *)
Theorem counters_ignore_edge_order (seed1 : rng1) (seed2 : rng2)
    (d1 d2 : json) (tuples1 tuples2 : list edge_tuple)
    (resolution1 n_iterations1 resolution2 n_iterations2 : json)
    (r1 r2 : result) :
  read_request float_of_str d1 = inr (tuples1, resolution1, n_iterations1) ->
  read_request float_of_str d2 = inr (tuples2, resolution2, n_iterations2) ->
  Permutation tuples1 tuples2 ->
  stdout (main float_of_str library1 seed1 (Document d1)) = [r1] ->
  stdout (main float_of_str library2 seed2 (Document d2)) = [r2] ->
  vertex_count (result_stats r1) = vertex_count (result_stats r2) /\
  edge_count (result_stats r1) = edge_count (result_stats r2).
Proof.
  intros R1 R2 P H1 H2.
  apply printed_inv in H1. apply printed_inv in H2.
  destruct H1 as (d1' & ts1 & rs1 & it1 & tr1 & [= <-] & R1' & D1 & S1).
  destruct H2 as (d2' & ts2 & rs2 & it2 & tr2 & [= <-] & R2' & D2 & S2).
  rewrite R1 in R1'. rewrite R2 in R2'.
  injection R1' as <- <- <-. injection R2' as <- <- <-.
  apply detect_hashable in D1. apply detect_hashable in D2.
  pose proof (endpoints_permutation _ _ P) as Pe.
  rewrite S1, S2. simpl. split; [|now apply Permutation_length].
  apply Nat.le_antisymm; apply first_seen_length_incl; trivial.
  - intros v Hv. now apply (Permutation_in _ Pe).
  - intros v Hv. apply Permutation_sym in Pe. now apply (Permutation_in _ Pe).
Qed.

End Order.

(** ** Success, failure and duplicates *)

Lemma occurrences_firstn (v : json) (k : nat) (l : list json) :
  occurrences v (firstn k l) <= occurrences v l.
Proof.
  unfold occurrences. rewrite <- (firstn_skipn k l) at 2.
  rewrite filter_app, length_app. lia.
Qed.

Section Answers.

Variable float_of_str : string -> res pyfloat.
Context {rng : Type}.
Variable find_partition :
  rng -> nat -> list (nat * nat) -> list pyfloat -> json -> json ->
  res (list nat).

(** X10.  Whatever the library answers, no identifier is printed twice:
    neither in two communities nor twice in one. *)
Theorem no_vertex_printed_twice (seed : rng) (input : stdin) (r : result)
    (v : json) :
  stdout (main float_of_str find_partition seed input) = [r] ->
  occurrences v (printed_ids r) <= 1.
Proof.
  intros H. apply printed_inv in H.
  destruct H as (d & tuples & rs & it & tr & -> & R & D & S).
  unfold printed_ids. destruct tuples as [|t0 rest].
  - simpl in D. injection D as _ E. rewrite <- E. simpl. unfold occurrences.
    simpl. lia.
  - apply detect_inv in D; [|discriminate].
    destruct D as (vt & et & m & vs & _ & _ & _ & Fv & P & _).
    apply (read_prefix []) in Fv. destruct Fv as [_ ->].
    unfold occurrences.
    rewrite (Permutation_length (filter_permutation _ _ _ P)).
    fold (occurrences v (firstn (List.length m)
                           (first_seen (endpoints (t0 :: rest))))).
    etransitivity; [apply occurrences_firstn|].
    rewrite first_seen_occurrences.
    destruct (seen_in (endpoints (t0 :: rest)) v); lia.
Qed.

(** X14.  An exception raised by the partition request ends the run with
    exit status 1, after the three calls and with nothing printed.  Line
    129 catches it only when it is an [Exception], and then the error
    object carries its text; a bare [BaseException], which is what
    leidenalg raises, is not caught and leaves a traceback. *)
Theorem library_failure_ends_run (seed : rng) (d : json)
    (tuples : list edge_tuple) (resolution n_iterations : json)
    (vt : vertex_table) (et : list (nat * nat)) (ws : list pyfloat)
    (e : exn) :
  read_request float_of_str d = inr (tuples, resolution, n_iterations) ->
  tuples <> [] ->
  index_edges tuples = inr (vt, et, ws) ->
  find_partition seed (List.length vt) et ws resolution n_iterations = inl e ->
  main float_of_str find_partition seed (Document d) =
    mkProcess
      [IgraphGraph (List.length vt) et; SetEdgeWeights ws;
       FindPartition ws resolution n_iterations]
      []
      [if is_exception e then ErrorJson (str_exn e) else Traceback e]
      1.
Proof.
  intros R Hne I L.
  rewrite (main_after_request _ _ _ _ _ _ _ R).
  destruct (detect_exact find_partition seed tuples resolution n_iterations
              vt et ws Hne I) as [_ D].
  now rewrite D, L.
Qed.

(** X5.  Once [json.load] has returned a document, the run ends with an
    uncaught exception exactly when the document cannot be read by lines
    98-110 (it is not an object, its [edges] entry cannot be iterated, or
    one of its edges is not accepted), or when the partition request
    raises an exception that is not an [Exception]. *)
Theorem uncaught_exactly_when (seed : rng) (d : json) :
  (exists e, stderr (main float_of_str find_partition seed (Document d))
               = [Traceback e]) <->
  unreadable float_of_str d \/
  (exists tuples resolution n_iterations vt et ws e,
     read_request float_of_str d = inr (tuples, resolution, n_iterations) /\
     tuples <> [] /\
     index_edges tuples = inr (vt, et, ws) /\
     find_partition seed (List.length vt) et ws resolution n_iterations = inl e /\
     is_exception e = false).
Proof.
  split.
  - intros [e He].
    destruct (read_request float_of_str d) as [e0|[[ts rs] it]] eqn:R.
    { left. eapply read_request_fails; eassumption. }
    right. rewrite (main_after_request _ _ _ _ _ _ _ R) in He.
    destruct ts as [|t0 rest]; [discriminate|].
    destruct (index_edges (t0 :: rest)) as [e1|[[vt et] ws]] eqn:I.
    { destruct (index_edges_error _ _ I) as [msg ->].
      unfold detect_communities in He. rewrite I in He. discriminate. }
    destruct (detect_exact find_partition seed (t0 :: rest) rs it vt et ws
                ltac:(discriminate) I) as [_ D].
    rewrite D in He.
    destruct (find_partition seed (List.length vt) et ws rs it) as [e1|m] eqn:L.
    + exists (t0 :: rest), rs, it, vt, et, ws, e1.
      repeat split; trivial; [discriminate|].
      destruct (is_exception e1); [discriminate|reflexivity].
    + destruct (Nat.leb (List.length m) (List.length vt)); discriminate.
  - intros [H | (ts & rs & it & vt & et & ws & e & R & Hne & I & L & N)].
    + destruct (unreadable_fails _ _ H) as [e R].
      exists e. now rewrite (main_bad_request _ _ _ _ _ R).
    + exists e. rewrite (main_after_request _ _ _ _ _ _ _ R).
      destruct (detect_exact find_partition seed ts rs it vt et ws Hne I)
        as [_ D].
      now rewrite D, L, N.
Qed.

(** X15.  A run on a non-empty edge list prints a result exactly when the
    numbering loop succeeds and the library answers with a membership
    list of at most as many labels as there are vertices. *)
Theorem prints_exactly_when (seed : rng) (d : json)
    (tuples : list edge_tuple) (resolution n_iterations : json) :
  read_request float_of_str d = inr (tuples, resolution, n_iterations) ->
  tuples <> [] ->
  (exists r, stdout (main float_of_str find_partition seed (Document d)) = [r])
  <->
  (exists vt et ws m,
     index_edges tuples = inr (vt, et, ws) /\
     find_partition seed (List.length vt) et ws resolution n_iterations
       = inr m /\
     List.length m <= List.length vt).
Proof.
  intros R Hne. split.
  - intros [r H].
    destruct (printed_exact float_of_str find_partition seed d tuples
                resolution n_iterations r R Hne H)
      as (vt & et & m & I & _ & L & Hle & _).
    exists vt, et, (map snd tuples), m. auto.
  - intros (vt & et & ws & m & I & L & Hle).
    rewrite (main_after_request _ _ _ _ _ _ _ R).
    destruct (detect_exact find_partition seed tuples resolution n_iterations
                vt et ws Hne I) as [_ D].
    rewrite D, L.
    destruct (Nat.leb_spec (List.length m) (List.length vt)); [|lia].
    simpl. eauto.
Qed.

End Answers.

(** ** Runs that exercise these properties *)

Lemma edges_kept_witness :
  let edges := [(JStr "a", JStr "a", one); (JStr "a", JStr "b", one);
                (JStr "a", JStr "b", minus_one)] in
  let vt := [(JStr "a", 0); (JStr "b", 1)] in
  let et := [(0, 0); (0, 1); (0, 1)] in
  let ws := [one; one; minus_one] in
  index_edges edges = inr (vt, et, ws) /\
  List.length et = List.length edges /\
  ws = map snd edges /\
  Forall2 (fun e p =>
             indexed_in vt e p /\
             (fst p = snd p <-> key_eqb (fst (fst e)) (snd (fst e)) = true))
          edges et.
Proof.
  intros edges vt et ws. split; [reflexivity|].
  apply (edges_kept_one_for_one edges vt et ws). reflexivity.
Defined.

Lemma two_items_witness :
  py_len (JStr "ab") = inr 2 /\
  exists source target,
    py_iter (JStr "ab") = inr [source; target] /\
    convert_edge no_text_floats (JStr "ab") = inr (source, target, one).
Proof.
  split; [reflexivity|].
  apply (two_items_make_an_edge no_text_floats (JStr "ab")). reflexivity.
Defined.

Example string_edge :
  convert_edge no_text_floats (JStr "ab") = inr (JStr "a", JStr "b", one).
Proof. reflexivity. Qed.

Lemma first_bad_edge_witness :
  let fields := [("edges", JArr [pair_edge (JStr "a") (JStr "b");
                                 JArr [JInt 1]; JNull])] in
  let e := ValueError "not enough values to unpack (expected 3, got 1)" in
  py_iter (obj_get fields "edges" (JArr []))
    = inr ([pair_edge (JStr "a") (JStr "b")] ++ JArr [JInt 1] :: [JNull]) /\
  Forall (fun edge => exists t, convert_edge no_text_floats edge = inr t)
         [pair_edge (JStr "a") (JStr "b")] /\
  convert_edge no_text_floats (JArr [JInt 1]) = inl e /\
  main no_text_floats one_block tt (Document (JObj fields)) =
    mkProcess [] [] [Traceback e] 1.
Proof.
  intros fields e.
  assert (G : Forall (fun edge => exists t,
                        convert_edge no_text_floats edge = inr t)
                     [pair_edge (JStr "a") (JStr "b")]).
  { constructor; [|constructor]. eexists. reflexivity. }
  split; [reflexivity|]. split; [exact G|]. split; [reflexivity|].
  apply (first_bad_edge_decides no_text_floats one_block tt fields
           [pair_edge (JStr "a") (JStr "b")] [JNull] (JArr [JInt 1]) e);
    [reflexivity | exact G | reflexivity].
Defined.

Lemma printed_communities_witness :
  let d := JObj [("edges", JArr ab_bc)] in
  let r := mkResult [mkCommunity 0 [JStr "a"; JStr "c"]; mkCommunity 0 [JStr "b"]]
                    (mkStats 3 2 2) in
  read_request no_text_floats d = inr (ab_bc_tuples, JFloat one, JInt (-1)) /\
  ab_bc_tuples <> [] /\
  stdout (main no_text_floats by_seed 2 (Document d)) = [r] /\
  let keys := first_seen (endpoints ab_bc_tuples) in
  exists et m,
    by_seed 2 (List.length keys) et (map snd ab_bc_tuples)
      (JFloat one) (JInt (-1)) = inr m /\
    List.length m <= List.length keys /\
    communities r =
      map (fun c => mkCommunity 0 (members_of c m (firstn (List.length m) keys)))
          (first_labels m).
Proof.
  intros d r. split; [reflexivity|]. split; [discriminate|].
  split; [reflexivity|].
  apply (printed_communities no_text_floats by_seed 2 d ab_bc_tuples
           (JFloat one) (JInt (-1)) r);
    [reflexivity | discriminate | reflexivity].
Defined.

Lemma long_membership_witness :
  let d := JObj [("edges", JArr ab_bc)] in
  let vt := [(JStr "a", 0); (JStr "b", 1); (JStr "c", 2)] in
  let et := [(0, 1); (1, 2)] in
  let ws := [one; one] in
  let m := [0; 0; 0; 0] in
  read_request no_text_floats d = inr (ab_bc_tuples, JFloat one, JInt (-1)) /\
  ab_bc_tuples <> [] /\
  index_edges ab_bc_tuples = inr (vt, et, ws) /\
  fixed_membership m tt (List.length vt) et ws (JFloat one) (JInt (-1)) = inr m /\
  List.length vt < List.length m /\
  main no_text_floats (fixed_membership m) tt (Document d) =
    mkProcess
      [IgraphGraph (List.length vt) et; SetEdgeWeights ws;
       FindPartition ws (JFloat one) (JInt (-1))]
      [] [ErrorJson (str_of_nat (List.length vt))] 1.
Proof.
  intros d vt et ws m. split; [reflexivity|]. split; [discriminate|].
  split; [reflexivity|]. split; [reflexivity|]. split; [simpl; lia|].
  apply (long_membership_is_reported no_text_floats (fixed_membership m) tt d
           ab_bc_tuples (JFloat one) (JInt (-1)) vt et ws m);
    [reflexivity | discriminate | reflexivity | reflexivity | simpl; lia].
Defined.

Lemma unhashable_identifier_witness :
  let d := JObj [("edges", JArr [pair_edge (JObj []) (JArr [])])] in
  let tuples := [(JObj [], JArr [], one)] in
  read_request no_text_floats d = inr (tuples, JFloat one, JInt (-1)) /\
  ~ Forall hashable (endpoints tuples) /\
  exists before v after,
    endpoints tuples = before ++ v :: after /\
    Forall hashable before /\ ~ hashable v /\
    main no_text_floats one_block tt (Document d) =
      mkProcess [] []
        [ErrorJson ("unhashable type: '" ++ type_name v ++ "'")] 1.
Proof.
  intros d tuples.
  assert (N : ~ Forall hashable (endpoints tuples)).
  { intros H. inversion H as [|? ? Hv _]. now apply Hv. }
  split; [reflexivity|]. split; [exact N|].
  apply (unhashable_identifier_stops_run no_text_floats one_block tt d tuples
           (JFloat one) (JInt (-1))); [reflexivity | exact N].
Defined.

(** For the edge [[{}, []]] it is the source, a dict, that is reported. *)
Example first_unhashable_is_reported :
  main no_text_floats one_block tt (request [pair_edge (JObj []) (JArr [])]) =
    mkProcess [] [] [ErrorJson "unhashable type: 'dict'"] 1.
Proof. reflexivity. Qed.

Lemma library_calls_witness :
  let fields := [("edges", JArr ab_bc)] in
  convert_edges no_text_floats (obj_get fields "edges" (JArr []))
    = inr ab_bc_tuples /\
  ab_bc_tuples <> [] /\
  Forall hashable (endpoints ab_bc_tuples) /\
  exists et,
    calls (main no_text_floats one_block tt (Document (JObj fields))) =
      [IgraphGraph (List.length (first_seen (endpoints ab_bc_tuples))) et;
       SetEdgeWeights (map snd ab_bc_tuples);
       FindPartition (map snd ab_bc_tuples)
         (obj_get fields "resolution" (JFloat one))
         (obj_get fields "n_iterations" (JInt (-1)))] /\
    List.length et = List.length ab_bc_tuples /\
    Forall (fun p => fst p < List.length (first_seen (endpoints ab_bc_tuples)) /\
                     snd p < List.length (first_seen (endpoints ab_bc_tuples))) et.
Proof.
  intros fields.
  assert (H : Forall hashable (endpoints ab_bc_tuples))
    by (repeat constructor; discriminate).
  split; [reflexivity|]. split; [discriminate|]. split; [exact H|].
  apply (library_calls no_text_floats one_block tt fields ab_bc_tuples);
    [reflexivity | discriminate | exact H].
Defined.

Lemma counters_match_graph_witness :
  let r := mkResult [mkCommunity 0 [JStr "a"; JStr "b"; JStr "c"]] (mkStats 3 2 1) in
  let p := main no_text_floats one_block tt (request ab_bc) in
  stdout p = [r] /\
  ((calls p = [] /\ communities r = [] /\ result_stats r = mkStats 0 0 0) \/
   (exists et ws resolution n_iterations,
      calls p =
        [IgraphGraph (vertex_count (result_stats r)) et; SetEdgeWeights ws;
         FindPartition ws resolution n_iterations] /\
      List.length et = edge_count (result_stats r) /\
      List.length ws = edge_count (result_stats r) /\
      0 < edge_count (result_stats r))).
Proof.
  intros r p. split; [reflexivity|].
  apply (counters_match_graph no_text_floats one_block tt (request ab_bc) r).
  reflexivity.
Defined.

Lemma counters_bounds_witness :
  let r := mkResult [mkCommunity 0 [JStr "a"; JStr "c"]; mkCommunity 0 [JStr "b"]]
                    (mkStats 3 2 2) in
  stdout (main no_text_floats by_seed 2 (request ab_bc)) = [r] /\
  Forall (fun c => entity_ids c <> []) (communities r) /\
  community_count (result_stats r) <= vertex_count (result_stats r) /\
  vertex_count (result_stats r) <= 2 * edge_count (result_stats r).
Proof.
  intros r. split; [reflexivity|].
  apply (counters_bounds no_text_floats by_seed 2 (request ab_bc) r).
  reflexivity.
Defined.

Lemma counters_ignore_edge_order_witness :
  let d1 := JObj [("edges", JArr ab_bc)] in
  let d2 := JObj [("edges", JArr [pair_edge (JStr "b") (JStr "c");
                                  pair_edge (JStr "a") (JStr "b")])] in
  let tuples2 := [(JStr "b", JStr "c", one); (JStr "a", JStr "b", one)] in
  let r1 := mkResult [mkCommunity 0 [JStr "a"; JStr "b"; JStr "c"]] (mkStats 3 2 1) in
  let r2 := mkResult [mkCommunity 0 [JStr "b"; JStr "c"]; mkCommunity 0 [JStr "a"]]
                     (mkStats 3 2 2) in
  read_request no_text_floats d1 = inr (ab_bc_tuples, JFloat one, JInt (-1)) /\
  read_request no_text_floats d2 = inr (tuples2, JFloat one, JInt (-1)) /\
  Permutation ab_bc_tuples tuples2 /\
  stdout (main no_text_floats one_block tt (Document d1)) = [r1] /\
  stdout (main no_text_floats (fixed_membership [0; 0; 1]) tt (Document d2)) = [r2] /\
  vertex_count (result_stats r1) = vertex_count (result_stats r2) /\
  edge_count (result_stats r1) = edge_count (result_stats r2).
Proof.
  intros d1 d2 tuples2 r1 r2.
  assert (P : Permutation ab_bc_tuples tuples2) by apply perm_swap.
  split; [reflexivity|]. split; [reflexivity|]. split; [exact P|].
  split; [reflexivity|]. split; [reflexivity|].
  apply (counters_ignore_edge_order no_text_floats one_block
           (fixed_membership [0; 0; 1]) tt tt d1 d2 ab_bc_tuples tuples2
           (JFloat one) (JInt (-1)) (JFloat one) (JInt (-1)) r1 r2);
    [reflexivity | reflexivity | exact P | reflexivity | reflexivity].
Defined.

Lemma no_vertex_printed_twice_witness :
  let r := mkResult [mkCommunity 0 [JStr "a"; JStr "b"]] (mkStats 3 2 1) in
  stdout (main no_text_floats (fixed_membership [5; 5]) tt (request ab_bc)) = [r] /\
  occurrences (JStr "a") (printed_ids r) <= 1.
Proof.
  intros r. split; [reflexivity|].
  apply (no_vertex_printed_twice no_text_floats (fixed_membership [5; 5]) tt
           (request ab_bc) r (JStr "a")).
  reflexivity.
Defined.

Lemma library_failure_witness :
  let d := JObj [("edges",
                  JArr [triple_edge (JStr "a") (JStr "b") (JFloat minus_one)])] in
  let tuples := [(JStr "a", JStr "b", minus_one)] in
  let vt := [(JStr "a", 0); (JStr "b", 1)] in
  let et := [(0, 1)] in
  let ws := [minus_one] in
  let e := BaseException "weights must be finite and not negative" in
  read_request no_text_floats d = inr (tuples, JFloat one, JInt (-1)) /\
  tuples <> [] /\
  index_edges tuples = inr (vt, et, ws) /\
  strict_block tt (List.length vt) et ws (JFloat one) (JInt (-1)) = inl e /\
  main no_text_floats strict_block tt (Document d) =
    mkProcess
      [IgraphGraph (List.length vt) et; SetEdgeWeights ws;
       FindPartition ws (JFloat one) (JInt (-1))]
      []
      [if is_exception e then ErrorJson (str_exn e) else Traceback e]
      1.
Proof.
  intros d tuples vt et ws e. split; [reflexivity|]. split; [discriminate|].
  split; [reflexivity|]. split; [reflexivity|].
  apply (library_failure_ends_run no_text_floats strict_block tt d tuples
           (JFloat one) (JInt (-1)) vt et ws e);
    [reflexivity | discriminate | reflexivity | reflexivity].
Defined.

Lemma prints_exactly_when_witness :
  let d := JObj [("edges", JArr ab_bc)] in
  read_request no_text_floats d = inr (ab_bc_tuples, JFloat one, JInt (-1)) /\
  ab_bc_tuples <> [] /\
  ((exists r, stdout (main no_text_floats one_block tt (Document d)) = [r])
   <->
   (exists vt et ws m,
      index_edges ab_bc_tuples = inr (vt, et, ws) /\
      one_block tt (List.length vt) et ws (JFloat one) (JInt (-1)) = inr m /\
      List.length m <= List.length vt)).
Proof.
  intros d. split; [reflexivity|]. split; [discriminate|].
  apply (prints_exactly_when no_text_floats one_block tt d ab_bc_tuples
           (JFloat one) (JInt (-1))); [reflexivity | discriminate].
Defined.
